(** * Cash transfers between cash journals (model [cash.transfer])

    A shallow embedding of [models/cash_transfer.py]: the journal
    resolution helpers, the [journal_id_from] onchange and
    [action_validate], together with the properties the specification
    states about them.

    Conventions of the embedding.
    - A recordset that holds at most one row (a [Many2one] value, the
      result of [search(..., limit=1)], of [browse(id).exists()]) is an
      [option]: [None] is the empty recordset, which Python treats as
      false.  [r.id] of such a recordset is an [option Z] ([None] for
      [False]); two recordsets of one model are [==] when their ids agree.
    - The read-only directories ([account.journal], [operating.unit]) are
      lists of rows, listed in the order a [search] without [order=]
      returns them (the model's [_order]).
    - The tables the code writes ([cash.transfer], [account.move]) are
      finite maps from the row id to the row; the methods run in a state
      and exception monad over them.
    - A monetary amount is a rational number; texts are byte strings and
      the text functions are modelled for ASCII. *)

From Stdlib Require Import ZArith QArith String Ascii List Lia DecimalString.
From Stdlib Require Import DecimalPos.
From stdpp Require Import gmap strings list fin_maps.

Local Open Scope Z_scope.

(** ** Python builtins used by the module *)

Module Py.

Inductive exn : Type :=
| UserError (msg : string)
| ValueError
| MissingError.

Definition result (A : Type) : Type := (exn + A)%type.

Definition ord (c : ascii) : Z := Z.of_N (N_of_ascii c).

(** The white space [int(text)] skips around a number: TAB..CR and the
    space. *)
Definition isspace (c : ascii) : bool :=
  ((9 <=? ord c) && (ord c <=? 13)) || (ord c =? 32).

Definition isdigit (c : ascii) : bool := (48 <=? ord c) && (ord c <=? 57).

Definition digit_value (c : ascii) : Z := ord c - 48.

Fixpoint lstrip (s : list ascii) : list ascii :=
  match s with
  | c :: t => if isspace c then lstrip t else s
  | [] => []
  end.

(** The digit scanner of [int(text)] in base 10: decimal digits, with
    single underscores allowed between two digits.  [prev_us] tells that
    the previous character was an underscore, [n] counts the digits read
    so far; the scanner returns the value, the number of digits and the
    unread rest, or fails on a doubled or trailing underscore and on a
    text without digit. *)
Fixpoint scan_digits (prev_us : bool) (n : nat) (acc : Z) (s : list ascii)
  : option (Z * nat * list ascii) :=
  match s with
  | c :: t =>
      if isdigit c then scan_digits false (S n) (10 * acc + digit_value c) t
      else if Ascii.eqb c "_" then
             if prev_us then None else scan_digits true n acc t
           else if prev_us then None
                else match n with O => None | S _ => Some (acc, n, s) end
  | [] => if prev_us then None
          else match n with O => None | S _ => Some (acc, n, []) end
  end.

(** The greatest number of digits [int(text)] converts
    ([sys.int_info.default_max_str_digits]). *)
Definition max_str_digits : Z := 4300.

(** The number after the sign: it may not start with an underscore, may
    not have more than [max_str_digits] digits, and nothing but white
    space may follow it. *)
Definition parse_number (neg : bool) (s : list ascii) : result Z :=
  match s with
  | c :: _ => if Ascii.eqb c "_" then inl ValueError
              else match scan_digits false 0 0 s with
                   | Some (v, digits, rest) =>
                       if max_str_digits <? Z.of_nat digits then inl ValueError
                       else match lstrip rest with
                            | [] => inr (if neg then - v else v)
                            | _ :: _ => inl ValueError
                            end
                   | None => inl ValueError
                   end
  | [] => inl ValueError
  end.

(** [int(text)] for a text of ASCII characters: the white space before
    the number is skipped and one sign is accepted. *)
Definition int (text : string) : result Z :=
  let s := lstrip (list_ascii_of_string text) in
  let '(neg, s) :=
    match s with
    | c :: t => if Ascii.eqb c "+" then (false, t)
                else if Ascii.eqb c "-" then (true, t)
                else (false, s)
    | [] => (false, s)
    end in
  parse_number neg s.

(** [int(text or 0)] *)
Definition int_or_0 (text : string) : result Z :=
  if String.eqb text "" then inr 0 else int text.

(** [str(n)] for an integer. *)
Definition str (n : Z) : string := NilZero.string_of_int (Z.to_int n).

(** [fmt % arg] for a format with [%s] conversions and one text
    argument: the first [%s] is replaced by the argument. *)
Fixpoint percent (fmt arg : string) : string :=
  match fmt with
  | String "%" (String "s" rest) => String.append arg rest
  | String c rest => String c (percent rest arg)
  | EmptyString => EmptyString
  end.

(** ASCII lower-casing, for case-insensitive comparison. *)
Definition lower_char (c : ascii) : ascii :=
  if (65 <=? ord c) && (ord c <=? 90)
  then ascii_of_N (N_of_ascii c + 32) else c.

Fixpoint lower (s : string) : string :=
  match s with
  | String c t => String (lower_char c) (lower t)
  | EmptyString => EmptyString
  end.

(** [needle in hay] *)
Fixpoint contains (needle hay : string) : bool :=
  String.prefix needle hay
  || match hay with
     | String _ t => contains needle t
     | EmptyString => false
     end.

End Py.

Import Py.

(** ** The rows of the models the module reads and writes *)

Record Date : Type := { year : Z; month : Z; day : Z }.

(** [res.company] *)
Record Company : Type := {
  c_id : Z;
  c_currency_id : option Z;
}.

(** [operating.unit] *)
Record OperatingUnit : Type := {
  ou_id : Z;
  ou_name : string;
  ou_code : string;
  ou_company_id : Z;
}.

(** [account.journal]; the three account fields and the operating unit
    are [Many2one] values given by the id of the row they point to. *)
Record Journal : Type := {
  j_id : Z;
  j_name : string;
  j_type : string;
  j_company_id : Z;
  j_operating_unit_id : option Z;
  default_account_id : option Z;
  payment_debit_account_id : option Z;
  payment_credit_account_id : option Z;
}.

(** [cash.transfer] *)
Record Transfer : Type := {
  date : Date;
  company_id : option Company;
  journal_id_from : option Journal;
  journal_id_to : option Journal;
  amount : Q;
  currency_id : option Z;
  state : string;
}.

(** The values of one [account.move.line] *)
Record MoveLine : Type := {
  l_name : string;
  l_account_id : option Z;
  l_debit : Q;
  l_credit : Q;
  l_currency_id : option Z;
  l_company_id : option Z;
}.

(** The values passed to [account.move.create]; [line_ids] is a list of
    [One2many] commands [(op, id, values)]. *)
Record MoveVals : Type := {
  mv_date : Date;
  mv_journal_id : option Z;
  mv_ref : string;
  mv_line_ids : list (Z * Z * MoveLine);
  mv_company_id : option Z;
}.

(** [account.move] *)
Record Move : Type := {
  m_date : Date;
  m_journal_id : option Z;
  m_ref : string;
  m_lines : list MoveLine;
  m_company_id : option Z;
  m_state : string;
}.

(** What the methods read and never write.  The unit of the user is
    [getattr(user, 'default_operating_unit_id', False)]: [None] when the
    attribute is missing or empty. *)
Record Env : Type := {
  ir_config_parameter : gmap string string;
  user_default_operating_unit_id : option OperatingUnit;
  account_journal : list Journal;
  operating_unit : list OperatingUnit;
}.

(** What the methods write. *)
Record DB : Type := {
  cash_transfer : gmap Z Transfer;
  account_move : gmap Z Move;
}.

(** ** Recordsets *)

Definition truthy {A : Type} (r : option A) : bool :=
  match r with Some _ => true | None => false end.

Definition id_eq (a b : option Z) : bool :=
  match a, b with
  | Some x, Some y => x =? y
  | None, None => true
  | _, _ => false
  end.

Definition company_id_of (company : option Company) : option Z := c_id <$> company.
Definition journal_id_of (journal : option Journal) : option Z := j_id <$> journal.
Definition ou_id_of (ou : option OperatingUnit) : option Z := ou_id <$> ou.

(** [a == b] on two recordsets of [account.journal] *)
Definition journal_eq (a b : option Journal) : bool :=
  id_eq (journal_id_of a) (journal_id_of b).

(** [journal.name] of a journal recordset ([False] when it is empty). *)
Definition journal_name_of (journal : option Journal) : string :=
  match journal with Some j => j_name j | None => "False" end.

(** [Journal.browse(i).exists()] *)
Definition browse_exists (env : Env) (i : Z) : option Journal :=
  List.find (fun j => j_id j =? i) (account_journal env).

(** [search(domain, limit=1)]: the first match in the model's order. *)
Definition search_first {A : Type} (domain : A -> bool) (table : list A) : option A :=
  List.find domain table.

(** The row with the least id of a list, the earliest one among equals. *)
Fixpoint least_id (l : list Journal) : option Journal :=
  match l with
  | [] => None
  | j :: t =>
      match least_id t with
      | Some m => if j_id j <=? j_id m then Some j else Some m
      | None => Some j
      end
  end.

(** [Journal.search(domain, limit=1, order='id asc')] *)
Definition search_id_asc (domain : Journal -> bool) (table : list Journal) : option Journal :=
  least_id (List.filter domain table).

(** [ICP.get_param(key, default)]: the stored value, the default when the
    key is not stored or stored empty. *)
Definition get_param (env : Env) (key default : string) : string :=
  match ir_config_parameter env !! key with
  | Some v => if String.eqb v "" then default else v
  | None => default
  end.

(** [(field, 'ilike', pattern)] for a pattern without wildcard *)
Definition ilike (field pattern : string) : bool :=
  contains (lower pattern) (lower field).

(** [_(msgid)]: no catalogue is loaded, the message is its own translation. *)
Definition gettext (msgid : string) : string := msgid.

(** ** The methods of [cash.transfer] *)

Definition _get_user_default_ou (env : Env) : option OperatingUnit :=
  user_default_operating_unit_id env.

Definition cash_journal_domain (company : option Company) (ou : option OperatingUnit)
  (j : Journal) : bool :=
  String.eqb (j_type j) "cash"
  && id_eq (Some (j_company_id j)) (company_id_of company)
  && (if truthy ou then id_eq (j_operating_unit_id j) (ou_id_of ou) else true).

Definition _find_cash_journal_by_ou (env : Env) (company : option Company)
  (ou : option OperatingUnit) : option Journal :=
  search_id_asc (cash_journal_domain company ou) (account_journal env).

Definition central_ou_domain (company : option Company) (u : OperatingUnit) : bool :=
  id_eq (Some (ou_company_id u)) (company_id_of company)
  && (ilike (ou_name u) "Central" || String.eqb (ou_code u) "CENTRAL").

Definition ou_cash_journal_domain (company : option Company) (ou : OperatingUnit)
  (j : Journal) : bool :=
  String.eqb (j_type j) "cash"
  && id_eq (Some (j_company_id j)) (company_id_of company)
  && id_eq (j_operating_unit_id j) (Some (ou_id ou)).

(** Lines 66-74: the fallback on the operating unit named 'Central'. *)
Definition central_fallback (env : Env) (company : option Company) : option Journal :=
  match search_first (central_ou_domain company) (operating_unit env) with
  | Some central_ou =>
      match search_first (ou_cash_journal_domain company central_ou) (account_journal env) with
      | Some j => Some j
      | None => None
      end
  | None => None
  end.

(** Lines 61-64: the journal the configuration parameter names, when it
    is a cash journal of the company. *)
Definition central_configured (env : Env) (company : option Company) (central_id : Z)
  : option Journal :=
  if central_id =? 0 then None
  else match browse_exists env central_id with
       | Some j =>
           if id_eq (Some (j_company_id j)) (company_id_of company)
              && String.eqb (j_type j) "cash"
           then Some j else None
       | None => None
       end.

Definition _get_central_cash_journal (env : Env) (company : option Company)
  : result (option Journal) :=
  match int_or_0 (get_param env "cash_transfer.central_journal_id" "0") with
  | inl e => inl e
  | inr central_id =>
      match central_configured env company central_id with
      | Some j => inr (Some j)
      | None => inr (central_fallback env company)
      end
  end.

Definition _main_account (journal : option Journal) : option Z :=
  match journal with
  | None => None
  | Some j =>
      match default_account_id j with
      | Some a => Some a
      | None =>
          match payment_debit_account_id j with
          | Some a => Some a
          | None => payment_credit_account_id j
          end
      end
  end.


(** *** The onchange of [journal_id_from] *)

Definition journal_ou_of (journal : option Journal) : option Z :=
  match journal with Some j => j_operating_unit_id j | None => None end.

Definition set_journal_id_from (j : option Journal) (rec : Transfer) : Transfer :=
  {| date := date rec; company_id := company_id rec;
     journal_id_from := j; journal_id_to := journal_id_to rec;
     amount := amount rec; currency_id := currency_id rec; state := state rec |}.

(** The body of the loop of [_onchange_from_enforce_ou], on one record
    of the form. *)
Definition enforce_ou (env : Env) (rec : Transfer) : Transfer :=
  let user_ou := _get_user_default_ou env in
  if truthy (company_id rec) && truthy user_ou then
    if truthy (journal_id_from rec)
       && negb (id_eq (journal_ou_of (journal_id_from rec)) (ou_id_of user_ou))
    then
      let j := _find_cash_journal_by_ou env (company_id rec) user_ou in
      if truthy j then set_journal_id_from j rec else rec
    else rec
  else rec.

Definition _onchange_from_enforce_ou (env : Env) (self : list Transfer) : list Transfer :=
  enforce_ou env <$> self.

(** *** The state and exception monad of the writing methods *)

Definition M (A : Type) : Type := DB -> DB * result A.

#[global] Instance M_ret : MRet M := fun A x db => (db, inr x).

#[global] Instance M_bind : MBind M := fun A B f m db =>
  match m db with
  | (db', inr x) => f x db'
  | (db', inl e) => (db', inl e)
  end.

Definition raise {A : Type} (e : exn) : M A := fun db => (db, inl e).

Definition lift {A : Type} (r : result A) : M A := fun db => (db, r).

(** Reading the fields of the record [i] of [cash.transfer]. *)
Definition read (i : Z) : M Transfer := fun db =>
  match cash_transfer db !! i with
  | Some rec => (db, inr rec)
  | None => (db, inl MissingError)
  end.

Definition set_state (s : string) (rec : Transfer) : Transfer :=
  {| date := date rec; company_id := company_id rec;
     journal_id_from := journal_id_from rec; journal_id_to := journal_id_to rec;
     amount := amount rec; currency_id := currency_id rec; state := s |}.

(** [rec.state = s] *)
Definition write_state (i : Z) (s : string) : M unit := fun db =>
  ({| cash_transfer := alter (set_state s) i (cash_transfer db);
      account_move := account_move db |}, inr tt).

(** The ledger engine, as far as the module drives it: [create] stores a
    draft move built from the values, its lines being those of the
    commands [(0, 0, values)], under the next id of the table, and
    [action_post] marks the move posted. *)
Definition new_move (vals : MoveVals) : Move :=
  {| m_date := mv_date vals; m_journal_id := mv_journal_id vals;
     m_ref := mv_ref vals;
     m_lines := List.map snd (List.filter (fun c => fst (fst c) =? 0) (mv_line_ids vals));
     m_company_id := mv_company_id vals; m_state := "draft" |}.

(** The greatest id in use in a table (0 in an empty one), and the id the
    next created row gets. *)
Definition top_id {A : Type} (table : gmap Z A) : Z :=
  map_fold (fun k _ acc => Z.max k acc) 0 table.

Definition next_id {A : Type} (table : gmap Z A) : Z := 1 + top_id table.

Definition account_move_create (vals : MoveVals) : M Z := fun db =>
  let k := next_id (account_move db) in
  ({| cash_transfer := cash_transfer db;
      account_move := <[k := new_move vals]> (account_move db) |}, inr k).

Definition posted (m : Move) : Move :=
  {| m_date := m_date m; m_journal_id := m_journal_id m; m_ref := m_ref m;
     m_lines := m_lines m; m_company_id := m_company_id m; m_state := "posted" |}.

Definition action_post (move : Z) : M unit := fun db =>
  ({| cash_transfer := cash_transfer db;
      account_move := alter posted move (account_move db) |}, inr tt).

(** *** [action_validate] *)

Definition company_currency_of (rec : Transfer) : option Z :=
  match company_id rec with Some c => c_currency_id c | None => None end.

(** Lines 154-169: the two lines when the currency of the transfer is
    not the currency of the company. *)
Definition lines_other_currency (rec : Transfer) (acc_from acc_to : option Z)
  : MoveLine * MoveLine :=
  let transfer_currency := currency_id rec in
  ({| l_name := percent (gettext "Entrada a %s") (journal_name_of (journal_id_to rec));
      l_account_id := acc_to;
      l_debit := amount rec;
      l_credit := 0;
      l_currency_id := transfer_currency;
      l_company_id := company_id_of (company_id rec) |},
   {| l_name := percent (gettext "Salida de %s") (journal_name_of (journal_id_from rec));
      l_account_id := acc_from;
      l_debit := 0;
      l_credit := amount rec;
      l_currency_id := transfer_currency;
      l_company_id := company_id_of (company_id rec) |}).

(** Lines 171-186: the two lines when it is. *)
Definition lines_company_currency (rec : Transfer) (acc_from acc_to : option Z)
  : MoveLine * MoveLine :=
  let company_currency := company_currency_of rec in
  ({| l_name := percent (gettext "Entrada a %s") (journal_name_of (journal_id_to rec));
      l_account_id := acc_to;
      l_debit := amount rec;
      l_credit := 0;
      l_currency_id := company_currency;
      l_company_id := company_id_of (company_id rec) |},
   {| l_name := percent (gettext "Salida de %s") (journal_name_of (journal_id_from rec));
      l_account_id := acc_from;
      l_debit := 0;
      l_credit := amount rec;
      l_currency_id := company_currency;
      l_company_id := company_id_of (company_id rec) |}).

(** Lines 150-186 *)
Definition build_lines (rec : Transfer) (acc_from acc_to : option Z)
  : MoveLine * MoveLine :=
  let company_currency := company_currency_of rec in
  let transfer_currency := currency_id rec in
  if negb (id_eq transfer_currency company_currency)
  then lines_other_currency rec acc_from acc_to
  else lines_company_currency rec acc_from acc_to.

(** Lines 188-194 *)
Definition build_move_vals (i : Z) (rec : Transfer) (line_in line_out : MoveLine)
  : MoveVals :=
  {| mv_date := date rec;
     mv_journal_id := journal_id_of (journal_id_to rec);
     mv_ref := percent (gettext "Transferencia de efectivo #%s") (str i);
     mv_line_ids := [(0, 0, line_in); (0, 0, line_out)];
     mv_company_id := company_id_of (company_id rec) |}.

(** The errors of the specification, by the message the code raises. *)
Definition InvalidAmount : exn :=
  UserError (gettext "El importe debe ser mayor a cero.").
Definition MissingJournal : exn :=
  UserError (gettext "Debe seleccionar ambos diarios.").
Definition SameJournal : exn :=
  UserError (gettext "El diario de origen y destino no pueden ser el mismo.").
Definition DestinationMustBeCentral : exn :=
  UserError (gettext "El diario destino debe ser el Diario Central configurado.").
Definition MissingJournalAccount : exn :=
  UserError (gettext "Falta configurar la cuenta principal en uno de los diarios.").

(** The body of the loop of [action_validate], on the record of id [i]. *)
Definition validate_rec (env : Env) (i : Z) : M unit :=
  rec ← read i;
  if Qle_bool (amount rec) 0 then raise InvalidAmount else
  if negb (truthy (journal_id_from rec)) || negb (truthy (journal_id_to rec))
  then raise MissingJournal else
  if journal_eq (journal_id_from rec) (journal_id_to rec)
  then raise SameJournal else
  central ← lift (_get_central_cash_journal env (company_id rec));
  if truthy central && negb (journal_eq (journal_id_to rec) central)
  then raise DestinationMustBeCentral else
  let acc_from := _main_account (journal_id_from rec) in
  let acc_to := _main_account (journal_id_to rec) in
  if negb (truthy acc_from) || negb (truthy acc_to)
  then raise MissingJournalAccount else
  let '(line_in, line_out) := build_lines rec acc_from acc_to in
  let move_vals := build_move_vals i rec line_in line_out in
  move ← account_move_create move_vals;
  action_post move;;
  write_state i "validated".

(** [for x in l: body(x)] *)
Fixpoint for_each {A : Type} (body : A -> M unit) (l : list A) : M unit :=
  match l with
  | [] => mret tt
  | x :: t => body x;; for_each body t
  end.

(** [self] is the list of the ids of the recordset. *)
Definition action_validate (env : Env) (self : list Z) : M bool :=
  for_each (validate_rec env) self;;
  mret true.

(** *** The other onchange handlers *)

Definition set_journal_id_to (j : option Journal) (rec : Transfer) : Transfer :=
  {| date := date rec; company_id := company_id rec;
     journal_id_from := journal_id_from rec; journal_id_to := j;
     amount := amount rec; currency_id := currency_id rec; state := state rec |}.

(** [for rec in self: body(rec)] on the records of a form, for a body
    that assigns fields of [rec] and may raise: the records as the loop
    leaves them, and the error when it stopped on one. *)
Fixpoint for_records (body : Transfer -> Transfer * result unit) (self : list Transfer)
  : list Transfer * result unit :=
  match self with
  | [] => ([], inr tt)
  | rec :: rest =>
      match body rec with
      | (rec', inr _) =>
          let '(rest', r) := for_records body rest in (rec' :: rest', r)
      | (rec', inl e) => (rec' :: rest, inl e)
      end
  end.

(** Lines 95-99: the body of the loop of
    [_onchange_company_id_set_journals].  The source journal is assigned
    before the central journal is resolved. *)
Definition set_journals (env : Env) (rec : Transfer) : Transfer * result unit :=
  if negb (truthy (company_id rec)) then (rec, inr tt)
  else
    let user_ou := _get_user_default_ou env in
    let rec1 :=
      set_journal_id_from (_find_cash_journal_by_ou env (company_id rec) user_ou) rec in
    match _get_central_cash_journal env (company_id rec1) with
    | inl e => (rec1, inl e)
    | inr central => (set_journal_id_to central rec1, inr tt)
    end.

Definition _onchange_company_id_set_journals (env : Env) (self : list Transfer)
  : list Transfer * result unit :=
  for_records (set_journals env) self.

(** Lines 117-120: the body of the loop of [_onchange_to_enforce_central]. *)
Definition enforce_central (env : Env) (rec : Transfer) : Transfer * result unit :=
  if truthy (company_id rec) then
    match _get_central_cash_journal env (company_id rec) with
    | inl e => (rec, inl e)
    | inr central =>
        if truthy central then (set_journal_id_to central rec, inr tt)
        else (rec, inr tt)
    end
  else (rec, inr tt).

Definition _onchange_to_enforce_central (env : Env) (self : list Transfer)
  : list Transfer * result unit :=
  for_records (enforce_central env) self.

(** *** [default_get] *)

(** The values a dictionary of defaults holds. *)
Inductive value : Type :=
| VInt (n : Z)
| VText (s : string)
| VBool (b : bool)
| VDate (d : Date).

(** [name in fields_list] *)
Definition in_fields (name : string) (fields_list : list string) : bool :=
  existsb (String.eqb name) fields_list.

(** [default_get]; [company] is [self.env.company] and [res] the
    dictionary [super().default_get(fields_list)] returned. *)
Definition default_get (env : Env) (company : option Company)
  (res : gmap string value) (fields_list : list string) : result (gmap string value) :=
  let user_ou := _get_user_default_ou env in
  let j_from := _find_cash_journal_by_ou env company user_ou in
  match _get_central_cash_journal env company with
  | inl e => inl e
  | inr j_to =>
      let res :=
        match j_from with
        | Some j =>
            if in_fields "journal_id_from" fields_list
            then <["journal_id_from"%string := VInt (j_id j)]> res else res
        | None => res
        end in
      let res :=
        match j_to with
        | Some j =>
            if in_fields "journal_id_to" fields_list
            then <["journal_id_to"%string := VInt (j_id j)]> res else res
        | None => res
        end in
      inr res
  end.

(** ** The vocabulary of the specification *)

(** A cash journal of the company, tagged with the unit when one is given. *)
Definition cash_journal_of (company : option Company) (ou : option OperatingUnit)
  (j : Journal) : Prop :=
  j_type j = "cash"%string
  /\ Some (j_company_id j) = company_id_of company
  /\ (forall u, ou = Some u -> j_operating_unit_id j = Some (ou_id u)).

(** A unit of the company whose name contains 'Central' whatever the case
    of its letters, or whose code is exactly 'CENTRAL'. *)
Definition central_unit_of (company : option Company) (u : OperatingUnit) : Prop :=
  Some (ou_company_id u) = company_id_of company
  /\ ((exists a b, lower (ou_name u) = String.append a (String.append "central" b))
      \/ ou_code u = "CENTRAL"%string).

(** The text of a decimal integer: digits, after an optional sign. *)
Definition decimal_digits (s : list ascii) : bool :=
  match s with
  | [] => false
  | _ :: _ => forallb isdigit s
  end.

Definition decimal_integer_text (text : string) : bool :=
  match list_ascii_of_string text with
  | c :: t => if Ascii.eqb c "-" || Ascii.eqb c "+" then decimal_digits t
              else decimal_digits (c :: t)
  | [] => false
  end.

(** The value of the parameter is absent, empty or a decimal integer. *)
Definition central_parameter_numeric (env : Env) : Prop :=
  match ir_config_parameter env !! "cash_transfer.central_journal_id"%string with
  | Some v => v = ""%string \/ decimal_integer_text v = true
  | None => True
  end.

(** The number of digits of a text. *)
Definition digit_count (text : string) : nat :=
  length (List.filter isdigit (list_ascii_of_string text)).

(** The value of the parameter is absent, empty or a decimal integer of
    at most [max_str_digits] digits. *)
Definition central_parameter_within_limit (env : Env) : Prop :=
  match ir_config_parameter env !! "cash_transfer.central_journal_id"%string with
  | Some v => v = ""%string
              \/ (decimal_integer_text v = true
                  /\ Z.of_nat (digit_count v) <= max_str_digits)
  | None => True
  end.

(** Debits minus credits over the lines of a move. *)
Definition balance (lines : list MoveLine) : Q :=
  fold_right (fun l acc => l_debit l - l_credit l + acc)%Q 0%Q lines.

(** The incoming and the outgoing line as the specification words them:
    the currency is the currency of the transfer. *)
Definition incoming_line (rec : Transfer) (acc_to : option Z) : MoveLine :=
  {| l_name := String.append "Entrada a " (journal_name_of (journal_id_to rec));
     l_account_id := acc_to;
     l_debit := amount rec;
     l_credit := 0;
     l_currency_id := currency_id rec;
     l_company_id := company_id_of (company_id rec) |}.

Definition outgoing_line (rec : Transfer) (acc_from : option Z) : MoveLine :=
  {| l_name := String.append "Salida de " (journal_name_of (journal_id_from rec));
     l_account_id := acc_from;
     l_debit := 0;
     l_credit := amount rec;
     l_currency_id := currency_id rec;
     l_company_id := company_id_of (company_id rec) |}.

(** The posted move [action_validate] books for the record [i]. *)
Definition transfer_move (i : Z) (rec : Transfer) : Move :=
  {| m_date := date rec;
     m_journal_id := journal_id_of (journal_id_to rec);
     m_ref := String.append "Transferencia de efectivo #" (str i);
     m_lines := [ incoming_line rec (_main_account (journal_id_to rec));
                  outgoing_line rec (_main_account (journal_id_from rec)) ];
     m_company_id := company_id_of (company_id rec);
     m_state := "posted" |}.

(** The five preconditions of [validate], the resolution of the central
    journal having returned [central]. *)
Definition checks_pass (env : Env) (rec : Transfer) : Prop :=
  (0 < amount rec)%Q
  /\ (exists jf jt,
        journal_id_from rec = Some jf /\ journal_id_to rec = Some jt
        /\ j_id jf <> j_id jt
        /\ (exists central,
              _get_central_cash_journal env (company_id rec) = inr central
              /\ (forall c, central = Some c -> j_id jt = j_id c))
        /\ is_Some (_main_account (Some jf))
        /\ is_Some (_main_account (Some jt))).

(** The database after [validate] has booked the record [i]. *)
Definition booked (i : Z) (rec : Transfer) (db : DB) : DB :=
  {| cash_transfer := <[i := set_state "validated" rec]> (cash_transfer db);
     account_move := <[next_id (account_move db) := transfer_move i rec]> (account_move db) |}.

(** [n] calls of [action_validate] on the record [i], one after the other. *)
Fixpoint validate_times (env : Env) (i : Z) (n : nat) (db : DB) : DB * result bool :=
  match n with
  | O => (db, inr true)
  | S n' =>
      match validate_times env i n' db with
      | (db', inr _) => action_validate env [i] db'
      | (db', inl e) => (db', inl e)
      end
  end.

(** ** A company with two cash locations *)

Module Example.

Local Open Scope string_scope.

Definition company : Company := {| c_id := 1; c_currency_id := Some 7 |}.

Definition U1 : OperatingUnit :=
  {| ou_id := 1; ou_name := "Sucursal Norte"; ou_code := "NORTE"; ou_company_id := 1 |}.
Definition UC : OperatingUnit :=
  {| ou_id := 2; ou_name := "Casa central"; ou_code := "CC"; ou_company_id := 1 |}.

Definition J1 : Journal :=
  {| j_id := 1; j_name := "Caja Norte"; j_type := "cash"; j_company_id := 1;
     j_operating_unit_id := Some 1; default_account_id := Some 101;
     payment_debit_account_id := None; payment_credit_account_id := None |}.
Definition J2 : Journal :=
  {| j_id := 2; j_name := "Caja Central"; j_type := "cash"; j_company_id := 1;
     j_operating_unit_id := Some 2; default_account_id := None;
     payment_debit_account_id := Some 102; payment_credit_account_id := None |}.
(** A second cash journal of the unit U1, listed before J1. *)
Definition J3 : Journal :=
  {| j_id := 3; j_name := "Caja chica"; j_type := "cash"; j_company_id := 1;
     j_operating_unit_id := Some 1; default_account_id := Some 103;
     payment_debit_account_id := None; payment_credit_account_id := None |}.
(** A cash journal without unit and without account. *)
Definition J4 : Journal :=
  {| j_id := 4; j_name := "Caja nueva"; j_type := "cash"; j_company_id := 1;
     j_operating_unit_id := None; default_account_id := None;
     payment_debit_account_id := None; payment_credit_account_id := None |}.
Definition B5 : Journal :=
  {| j_id := 5; j_name := "Banco"; j_type := "bank"; j_company_id := 1;
     j_operating_unit_id := Some 1; default_account_id := Some 105;
     payment_debit_account_id := None; payment_credit_account_id := None |}.

Definition key : string := "cash_transfer.central_journal_id".

Definition env_with (icp : gmap string string) : Env :=
  {| ir_config_parameter := icp;
     user_default_operating_unit_id := Some U1;
     account_journal := [J3; B5; J1; J2; J4];
     operating_unit := [U1; UC] |}.

(** No parameter: the central journal is found through the unit. *)
Definition env : Env := env_with ∅.
(** The parameter names the journal J3. *)
Definition env_configured : Env := env_with {[ key := "3" ]}.
(** The parameter is not a number. *)
Definition env_text : Env := env_with {[ key := "central" ]}.
(** The parameter is a decimal integer of 4301 digits, all of them 1. *)
Definition long_text : string :=
  string_of_list_ascii (repeat "1"%char (Z.to_nat 4301)).
Definition env_long : Env := env_with {[ key := long_text ]}.

Definition transfer (jf jt : option Journal) (a : Q) : Transfer :=
  {| date := {| year := 2024; month := 5; day := 17 |};
     company_id := Some company;
     journal_id_from := jf; journal_id_to := jt;
     amount := a; currency_id := Some 7; state := "draft" |}.

Definition db_of (rec : Transfer) : DB :=
  {| cash_transfer := {[ 8 := rec ]}; account_move := ∅ |}.

(** Two transfers from J1 to J2: of 100 under the id 8, of 0 under 9. *)
Definition db_pair : DB :=
  {| cash_transfer :=
       <[9 := transfer (Some J1) (Some J2) 0]>
         {[ 8 := transfer (Some J1) (Some J2) 100 ]};
     account_move := ∅ |}.

End Example.

(** The same company, its directory listed by id, and forms to edit. *)
Module Forms.

Local Open Scope string_scope.

Definition env_by_id : Env :=
  {| ir_config_parameter := ∅;
     user_default_operating_unit_id := Some Example.U1;
     account_journal := [Example.J1; Example.J2; Example.J3; Example.J4; Example.B5];
     operating_unit := [Example.U1; Example.UC] |}.

(** A form without company. *)
Definition blank : Transfer :=
  {| date := {| year := 2024; month := 5; day := 17 |};
     company_id := None;
     journal_id_from := Some Example.J4; journal_id_to := Some Example.J4;
     amount := 25; currency_id := Some 7; state := "draft" |}.

(** A form of the company whose two journals are the journal J4. *)
Definition filled : Transfer :=
  Example.transfer (Some Example.J4) (Some Example.J4) 25.

(** The company without the unit 'Casa central'. *)
Definition env_without_central : Env :=
  {| ir_config_parameter := ∅;
     user_default_operating_unit_id := Some Example.U1;
     account_journal := [Example.J1; Example.J2; Example.J3; Example.J4; Example.B5];
     operating_unit := [Example.U1] |}.

(** The defaults of the other fields. *)
Definition res : gmap string value :=
  {[ "state" := VText "draft"; "journal_id_to" := VInt 4 ]}.

End Forms.

(** ** Recordsets and searches *)

Lemma id_eq_true (a b : option Z) : id_eq a b = true <-> a = b.
Proof.
  destruct a as [x|], b as [y|]; simpl; split; intros H;
    try discriminate; try reflexivity.
  - apply Z.eqb_eq in H. now subst.
  - inversion H. apply Z.eqb_refl.
Qed.

Lemma id_eq_false (a b : option Z) : id_eq a b = false <-> a <> b.
Proof.
  rewrite <- id_eq_true. destruct (id_eq a b); split; congruence.
Qed.

Lemma truthy_is_Some {A : Type} (r : option A) : truthy r = true <-> is_Some r.
Proof.
  destruct r; simpl; split; intros H; try discriminate; eauto.
  destruct H; discriminate.
Qed.

Lemma least_id_nil (l : list Journal) : least_id l = None <-> l = [].
Proof.
  destruct l as [|j t]; simpl; [tauto|].
  split; [|discriminate].
  destruct (least_id t) as [m|]; [destruct (j_id j <=? j_id m)|]; discriminate.
Qed.

Lemma least_id_least (l : list Journal) (j : Journal) :
  least_id l = Some j ->
  In j l /\ forall j', In j' l -> j_id j <= j_id j'.
Proof.
  revert j. induction l as [|a t IH]; simpl; intros j H; [discriminate|].
  destruct (least_id t) as [m|] eqn:Em.
  - destruct (IH m eq_refl) as [Hin Hle].
    destruct (Z.leb_spec (j_id a) (j_id m)); inversion H; subst; clear H.
    + split; [now left|]. intros j' [<-|Hj']; [lia|].
      specialize (Hle j' Hj'). lia.
    + split; [now right|]. intros j' [<-|Hj']; [lia|]. now apply Hle.
  - inversion H; subst. apply least_id_nil in Em. subst t.
    split; [now left|]. intros j' [<-|[]]. lia.
Qed.

Lemma cash_journal_domain_spec company ou j :
  cash_journal_domain company ou j = true <-> cash_journal_of company ou j.
Proof.
  unfold cash_journal_domain, cash_journal_of.
  rewrite !andb_true_iff, String.eqb_eq, id_eq_true.
  destruct ou as [u|]; simpl.
  - rewrite id_eq_true. split.
    + intros [[? ?] ?]. repeat split; try assumption. intros u' [= <-]. assumption.
    + intros (? & ? & Hu). repeat split; try assumption. now apply Hu.
  - split.
    + intros [[? ?] _]. repeat split; try assumption. intros u' [=].
    + intros (? & ? & _). repeat split; assumption.
Qed.

Lemma search_id_asc_Some domain table j :
  search_id_asc domain table = Some j ->
  In j table /\ domain j = true
  /\ forall j', In j' table -> domain j' = true -> j_id j <= j_id j'.
Proof.
  unfold search_id_asc. intros H. apply least_id_least in H as [Hin Hle].
  apply filter_In in Hin as [Hin Hd]. repeat split; try assumption.
  intros j' Hj' Hd'. apply Hle, filter_In. now split.
Qed.

Lemma search_id_asc_None domain table :
  search_id_asc domain table = None <->
  forall j', In j' table -> domain j' = false.
Proof.
  unfold search_id_asc. rewrite least_id_nil. split.
  - intros H j' Hj'. destruct (domain j') eqn:E; [|reflexivity].
    assert (Hin : In j' (List.filter domain table)) by (apply filter_In; now split).
    rewrite H in Hin. destruct Hin.
  - intros H. destruct (List.filter domain table) as [|a t] eqn:E; [reflexivity|].
    assert (Hin : In a (List.filter domain table)) by (rewrite E; now left).
    apply filter_In in Hin as [Hin Hd]. rewrite (H a Hin) in Hd. discriminate.
Qed.

(** ** The cash journal of a unit *)

(** C6: [_find_cash_journal_by_ou] searches the cash journals of the
    company, restricted to the unit only when a unit is given (the
    predicate [cash_journal_of] asks nothing of the unit of the journal
    when [ou] is empty).  When it returns a journal, this is such a
    journal of the directory and no other such journal has a lower id;
    it returns the empty recordset exactly when the directory has no such
    journal. *)
Theorem find_cash_journal_by_ou_lowest_id (env : Env) (company : option Company)
  (ou : option OperatingUnit) :
  match _find_cash_journal_by_ou env company ou with
  | Some j =>
      In j (account_journal env) /\ cash_journal_of company ou j
      /\ (forall j', In j' (account_journal env) -> cash_journal_of company ou j' ->
                     j_id j <= j_id j')
  | None =>
      forall j', In j' (account_journal env) -> ~ cash_journal_of company ou j'
  end.
Proof.
  unfold _find_cash_journal_by_ou.
  destruct (search_id_asc _ _) as [j|] eqn:E.
  - apply search_id_asc_Some in E as (Hin & Hd & Hle).
    split; [assumption|]. split; [now apply cash_journal_domain_spec|].
    intros j' Hj' Hc. apply Hle; [assumption|]. now apply cash_journal_domain_spec.
  - intros j' Hj' Hc. apply cash_journal_domain_spec in Hc.
    rewrite (proj1 (search_id_asc_None _ _) E j' Hj') in Hc. discriminate.
Qed.

(** In the example the unit U1 has the cash journals J3 and J1, J3 being
    listed first: the search returns J1, whose id is lower; without unit
    it returns J1 as well. *)
Lemma find_cash_journal_by_ou_lowest_id_witness :
  _find_cash_journal_by_ou Example.env (Some Example.company) (Some Example.U1)
  = Some Example.J1
  /\ (In Example.J3 (account_journal Example.env) ->
      cash_journal_of (Some Example.company) (Some Example.U1) Example.J3 ->
      j_id Example.J1 <= j_id Example.J3).
Proof.
  split; [reflexivity|].
  pose proof (find_cash_journal_by_ou_lowest_id
                Example.env (Some Example.company) (Some Example.U1)) as H.
  change (_find_cash_journal_by_ou Example.env (Some Example.company) (Some Example.U1))
    with (Some Example.J1) in H.
  exact (proj2 (proj2 H) Example.J3).
Defined.

(** ** The onchange of the source journal *)

Lemma enforce_ou_differs env rec c u j :
  company_id rec = Some c ->
  _get_user_default_ou env = Some u ->
  journal_id_from rec = Some j ->
  j_operating_unit_id j <> Some (ou_id u) ->
  enforce_ou env rec =
    match _find_cash_journal_by_ou env (Some c) (Some u) with
    | Some j1 => set_journal_id_from (Some j1) rec
    | None => rec
    end.
Proof.
  intros Hc Hu Hj Hne. unfold enforce_ou. rewrite Hc, Hu, Hj. simpl.
  apply id_eq_false in Hne. rewrite Hne. simpl.
  now destruct (_find_cash_journal_by_ou env (Some c) (Some u)).
Qed.

(** C7: on a change of the source journal, for a record of the form with
    a company, the user having a unit and the selected source journal
    being of another unit (or of none): when the directory has a cash
    journal of the company for the unit of the user, the source journal
    of the record the handler leaves is the journal
    [_find_cash_journal_by_ou] returns for that unit, a cash journal of
    the company for that unit, every other field being as it was; when
    the directory has none, the record is left as it is. *)
Theorem onchange_from_enforces_user_unit (env : Env) (self : list Transfer) (n : nat)
  (rec : Transfer) (c : Company) (u : OperatingUnit) (j : Journal) :
  self !! n = Some rec ->
  company_id rec = Some c ->
  _get_user_default_ou env = Some u ->
  journal_id_from rec = Some j ->
  j_operating_unit_id j <> Some (ou_id u) ->
  ((exists j', In j' (account_journal env) /\ cash_journal_of (Some c) (Some u) j') ->
   exists j1 rec',
     _find_cash_journal_by_ou env (Some c) (Some u) = Some j1
     /\ cash_journal_of (Some c) (Some u) j1
     /\ _onchange_from_enforce_ou env self !! n = Some rec'
     /\ journal_id_from rec' = Some j1
     /\ date rec' = date rec
     /\ company_id rec' = company_id rec
     /\ journal_id_to rec' = journal_id_to rec
     /\ amount rec' = amount rec
     /\ currency_id rec' = currency_id rec
     /\ state rec' = state rec)
  /\ ((forall j', In j' (account_journal env) -> ~ cash_journal_of (Some c) (Some u) j') ->
      _onchange_from_enforce_ou env self !! n = Some rec).
Proof.
  intros Hn Hc Hu Hj Hne.
  unfold _onchange_from_enforce_ou. rewrite list_lookup_fmap, Hn. simpl.
  rewrite (enforce_ou_differs env rec c u j Hc Hu Hj Hne).
  destruct (_find_cash_journal_by_ou env (Some c) (Some u)) as [j1|] eqn:E;
    unfold _find_cash_journal_by_ou in E.
  - apply search_id_asc_Some in E as (Hin & Hd & _).
    apply cash_journal_domain_spec in Hd. split.
    + intros _. exists j1, (set_journal_id_from (Some j1) rec).
      split; [reflexivity|]. split; [exact Hd|]. repeat split.
    + intros Hnone. destruct (Hnone j1 Hin Hd).
  - split; [|reflexivity].
    intros (j' & Hin & Hd). apply cash_journal_domain_spec in Hd.
    rewrite (proj1 (search_id_asc_None _ _) E j' Hin) in Hd. discriminate.
Qed.

(** The user of the example is of the unit U1; a form whose source is the
    central journal J2 gets the journal J1 of U1 instead. *)
Lemma onchange_from_enforces_user_unit_witness :
  exists rec',
    _onchange_from_enforce_ou Example.env
      [Example.transfer (Some Example.J2) (Some Example.J2) 10] !! 0%nat = Some rec'
    /\ journal_id_from rec' = Some Example.J1
    /\ journal_id_to rec' = Some Example.J2.
Proof.
  destruct (onchange_from_enforces_user_unit Example.env
              [Example.transfer (Some Example.J2) (Some Example.J2) 10] 0
              (Example.transfer (Some Example.J2) (Some Example.J2) 10)
              Example.company Example.U1 Example.J2
              eq_refl eq_refl eq_refl eq_refl) as [Hsome _].
  - simpl. intros [=].
  - destruct Hsome as (j1 & rec' & Hfind & _ & Hres & Hfrom & _ & _ & Hto & _).
    + exists Example.J1. split; [simpl; tauto|].
      repeat split. intros u [= <-]. reflexivity.
    + change (_find_cash_journal_by_ou Example.env (Some Example.company)
                (Some Example.U1)) with (Some Example.J1) in Hfind.
      inversion Hfind; subst j1. exists rec'.
      split; [exact Hres|]. split; [exact Hfrom|]. exact Hto.
Defined.

(** ** The lines of the move *)

Lemma append_empty_r (s : string) : String.append s "" = s.
Proof.
  induction s as [|c t IH]; [reflexivity|].
  change (String c (String.append t "") = String c t). now rewrite IH.
Qed.

Lemma percent_entrada (name : string) :
  percent (gettext "Entrada a %s") name = String.append "Entrada a " name.
Proof. unfold gettext. cbn. now rewrite append_empty_r. Qed.

Lemma percent_salida (name : string) :
  percent (gettext "Salida de %s") name = String.append "Salida de " name.
Proof. unfold gettext. cbn. now rewrite append_empty_r. Qed.

Lemma percent_ref (name : string) :
  percent (gettext "Transferencia de efectivo #%s") name
  = String.append "Transferencia de efectivo #" name.
Proof. unfold gettext. cbn. now rewrite append_empty_r. Qed.

Lemma lines_other_currency_spec rec acc_from acc_to :
  lines_other_currency rec acc_from acc_to
  = (incoming_line rec acc_to, outgoing_line rec acc_from).
Proof.
  unfold lines_other_currency, incoming_line, outgoing_line.
  now rewrite percent_entrada, percent_salida.
Qed.

Lemma lines_company_currency_spec rec acc_from acc_to :
  id_eq (currency_id rec) (company_currency_of rec) = true ->
  lines_company_currency rec acc_from acc_to
  = (incoming_line rec acc_to, outgoing_line rec acc_from).
Proof.
  intros H. apply id_eq_true in H.
  unfold lines_company_currency, incoming_line, outgoing_line.
  now rewrite <- H, percent_entrada, percent_salida.
Qed.

Lemma build_lines_spec rec acc_from acc_to :
  build_lines rec acc_from acc_to
  = (incoming_line rec acc_to, outgoing_line rec acc_from).
Proof.
  unfold build_lines.
  destruct (id_eq (currency_id rec) (company_currency_of rec)) eqn:E; simpl.
  - now apply lines_company_currency_spec.
  - apply lines_other_currency_spec.
Qed.

(** C5: the branch taken when the currency of the transfer is not the
    currency of the company and the branch taken when it is build the
    same two lines: each branch, under its guard, yields the incoming and
    the outgoing line whose currency is the currency of the transfer, so
    that under the guard of the second branch the two branches are equal,
    and the lines built are those lines whatever the guard. *)
Theorem currency_branches_build_same_lines (rec : Transfer) (acc_from acc_to : option Z) :
  (id_eq (currency_id rec) (company_currency_of rec) = false ->
   lines_other_currency rec acc_from acc_to
   = (incoming_line rec acc_to, outgoing_line rec acc_from))
  /\ (id_eq (currency_id rec) (company_currency_of rec) = true ->
      lines_company_currency rec acc_from acc_to
      = (incoming_line rec acc_to, outgoing_line rec acc_from)
      /\ lines_company_currency rec acc_from acc_to
         = lines_other_currency rec acc_from acc_to)
  /\ build_lines rec acc_from acc_to
     = (incoming_line rec acc_to, outgoing_line rec acc_from)
  /\ l_currency_id (fst (build_lines rec acc_from acc_to)) = currency_id rec
  /\ l_currency_id (snd (build_lines rec acc_from acc_to)) = currency_id rec.
Proof.
  split; [intros _; apply lines_other_currency_spec|].
  split.
  - intros H. split; [now apply lines_company_currency_spec|].
    rewrite lines_other_currency_spec. now apply lines_company_currency_spec.
  - rewrite build_lines_spec. repeat split.
Qed.

(** A transfer in the currency of the company takes the second branch,
    a transfer in another currency the first one. *)
Lemma currency_branches_build_same_lines_witness :
  lines_company_currency
    (Example.transfer (Some Example.J1) (Some Example.J2) 100) (Some 101) (Some 102)
  = lines_other_currency
      (Example.transfer (Some Example.J1) (Some Example.J2) 100) (Some 101) (Some 102).
Proof.
  exact (proj2 (proj1 (proj2 (currency_branches_build_same_lines
           (Example.transfer (Some Example.J1) (Some Example.J2) 100)
           (Some 101) (Some 102))) eq_refl)).
Defined.

(** ** The conversion of the configuration parameter *)

Lemma isdigit_not_space c : isdigit c = true -> isspace c = false.
Proof.
  unfold isdigit, isspace. intros H. apply andb_true_iff in H as [H1 H2].
  apply Z.leb_le in H1.
  replace (ord c <=? 13) with false by (symmetry; apply Z.leb_gt; lia).
  replace (ord c =? 32) with false by (symmetry; apply Z.eqb_neq; lia).
  now rewrite andb_false_r.
Qed.

Lemma isdigit_not_char c (d : ascii) : isdigit c = true -> isdigit d = false -> Ascii.eqb c d = false.
Proof.
  intros Hc Hd. destruct (Ascii.eqb_spec c d) as [->|]; [congruence|reflexivity].
Qed.

Lemma scan_digits_all (s : list ascii) :
  forallb isdigit s = true ->
  forall prev n acc, s <> [] \/ (n <> O /\ prev = false) ->
  exists v, scan_digits prev n acc s = Some (v, (n + length s)%nat, []).
Proof.
  induction s as [|c t IH]; intros Hall prev n acc Hne.
  - destruct Hne as [Hne|[Hn ->]]; [congruence|].
    simpl. rewrite Nat.add_0_r. destruct n; [congruence|]. eauto.
  - simpl in Hall. apply andb_true_iff in Hall as [Hc Ht].
    simpl. rewrite Hc, Nat.add_succ_r.
    apply (IH Ht false (S n)). right. split; [discriminate|reflexivity].
Qed.

Lemma filter_all_digits (s : list ascii) :
  forallb isdigit s = true -> List.filter isdigit s = s.
Proof.
  induction s as [|c t IH]; simpl; [reflexivity|]. intros H.
  apply andb_true_iff in H as [Hc Ht]. now rewrite Hc, IH.
Qed.

Lemma parse_number_digits (neg : bool) (s : list ascii) :
  decimal_digits s = true ->
  Z.of_nat (length s) <= max_str_digits ->
  exists v, parse_number neg s = inr v.
Proof.
  destruct s as [|c t]; [discriminate|]. intros Hall Hlen. unfold decimal_digits in Hall.
  assert (Hc : isdigit c = true) by (simpl in Hall; now apply andb_true_iff in Hall as [? _]).
  unfold parse_number. rewrite (isdigit_not_char c "_" Hc eq_refl).
  destruct (scan_digits_all (c :: t) Hall false O 0) as [v Hv]; [left; discriminate|].
  rewrite Hv. cbn [Nat.add].
  replace (max_str_digits <? Z.of_nat (length (c :: t))) with false
    by (symmetry; apply Z.ltb_ge; assumption).
  simpl. eauto.
Qed.

Lemma int_decimal_integer_text (text : string) :
  decimal_integer_text text = true ->
  Z.of_nat (digit_count text) <= max_str_digits ->
  exists v, int text = inr v.
Proof.
  unfold decimal_integer_text, digit_count, int.
  destruct (list_ascii_of_string text) as [|c t]; [discriminate|].
  destruct (Ascii.eqb_spec c "-") as [->|Hm]; simpl orb.
  - intros H. cbn [List.filter]. change (isdigit "-") with false. cbv iota.
    assert (Ht : forallb isdigit t = true) by (destruct t; [discriminate|exact H]).
    rewrite (filter_all_digits t Ht). intros Hlen.
    simpl lstrip. simpl Ascii.eqb. cbv iota. now apply parse_number_digits.
  - destruct (Ascii.eqb_spec c "+") as [->|Hp].
    + intros H. cbn [List.filter]. change (isdigit "+") with false. cbv iota.
      assert (Ht : forallb isdigit t = true) by (destruct t; [discriminate|exact H]).
      rewrite (filter_all_digits t Ht). intros Hlen.
      simpl lstrip. simpl Ascii.eqb. cbv iota. now apply parse_number_digits.
    + intros H. rewrite (filter_all_digits (c :: t) H). intros Hlen.
      assert (Hc : isdigit c = true)
        by (simpl in H; now apply andb_true_iff in H as [? _]).
      simpl lstrip. rewrite (isdigit_not_space c Hc).
      destruct (Ascii.eqb_spec c "+") as [|_]; [contradiction|].
      destruct (Ascii.eqb_spec c "-") as [|_]; [contradiction|].
      now apply parse_number_digits.
Qed.

Lemma central_parameter_within_limit_int (env : Env) :
  central_parameter_within_limit env ->
  exists central_id,
    int_or_0 (get_param env "cash_transfer.central_journal_id" "0") = inr central_id.
Proof.
  unfold central_parameter_within_limit, get_param.
  destruct (ir_config_parameter env !! _) as [v|]; [|intros _; exists 0; reflexivity].
  intros [->|[Hv Hlen]]; [exists 0; reflexivity|].
  destruct (String.eqb_spec v "") as [->|Hne]; [exists 0; reflexivity|].
  unfold int_or_0. destruct (String.eqb_spec v "") as [|_]; [contradiction|].
  now apply int_decimal_integer_text.
Qed.

Lemma get_central_cash_journal_returns env company central_id :
  int_or_0 (get_param env "cash_transfer.central_journal_id" "0") = inr central_id ->
  _get_central_cash_journal env company
  = inr (match central_configured env company central_id with
         | Some j => Some j
         | None => central_fallback env company
         end).
Proof.
  intros H. unfold _get_central_cash_journal. rewrite H.
  now destruct (central_configured env company central_id).
Qed.

Lemma int_raises_ValueError (text : string) (e : exn) :
  int text = inl e -> e = ValueError.
Proof.
  unfold int, parse_number.
  repeat match goal with
         | |- context [match ?x with _ => _ end] => destruct x
         end; congruence.
Qed.

Lemma get_central_cash_journal_raises env company e :
  _get_central_cash_journal env company = inl e ->
  int_or_0 (get_param env "cash_transfer.central_journal_id" "0") = inl e
  /\ e = ValueError.
Proof.
  unfold _get_central_cash_journal.
  destruct (int_or_0 _) as [e'|central_id] eqn:E.
  - intros [= <-]. split; [reflexivity|].
    unfold int_or_0 in E. destruct (String.eqb _ ""); [discriminate|].
    now apply int_raises_ValueError in E.
  - destruct (central_configured env company central_id); discriminate.
Qed.

(** C9, as amended: [_get_central_cash_journal] returns (a journal or
    the empty recordset) whenever the parameter
    [cash_transfer.central_journal_id] is absent, empty or the text of a
    decimal integer of at most 4300 digits; the only error it raises is
    the conversion error of [int], it is raised outside of that
    precondition only, and it is raised for some value of the parameter. *)
Theorem central_journal_returns_within_digit_limit :
  (forall env company,
      central_parameter_within_limit env ->
      exists central, _get_central_cash_journal env company = inr central)
  /\ (forall env company e,
         _get_central_cash_journal env company = inl e ->
         e = ValueError /\ ~ central_parameter_within_limit env)
  /\ (exists env company, _get_central_cash_journal env company = inl ValueError).
Proof.
  assert (Hret : forall env company,
             central_parameter_within_limit env ->
             exists central, _get_central_cash_journal env company = inr central).
  { intros env company H.
    destruct (central_parameter_within_limit_int env H) as [central_id Hid].
    rewrite (get_central_cash_journal_returns env company central_id Hid). eauto. }
  split; [exact Hret|]. split.
  - intros env company e He. split; [now apply get_central_cash_journal_raises in He|].
    intros Hnum. destruct (Hret env company Hnum) as [central Hc]. congruence.
  - exists Example.env_text, (Some Example.company). reflexivity.
Qed.

(** The parameter of [Example.env_configured] is the text 3. *)
Lemma central_journal_returns_within_digit_limit_witness :
  exists central,
    _get_central_cash_journal Example.env_configured (Some Example.company) = inr central.
Proof.
  apply (proj1 central_journal_returns_within_digit_limit).
  right. split; [reflexivity|]. vm_compute. discriminate.
Defined.

(** The parameter of [Example.env_long] is the text of a decimal
    integer, of 4301 digits: the conversion refuses it and the method
    raises. *)
Lemma central_journal_long_parameter_raises :
  central_parameter_numeric Example.env_long
  /\ _get_central_cash_journal Example.env_long (Some Example.company)
     = inl ValueError.
Proof.
  split.
  - right. vm_compute. reflexivity.
  - vm_compute. reflexivity.
Qed.

(** ** The central journal *)

Lemma append_cons (c : ascii) (t s : string) :
  String.append (String c t) s = String c (String.append t s).
Proof. reflexivity. Qed.

Lemma prefix_append (p s : string) :
  String.prefix p s = true <-> exists b, s = String.append p b.
Proof.
  revert s. induction p as [|c p IH]; intros s.
  - split; [intros _; now exists s|]. intros _. now destruct s.
  - destruct s as [|d s].
    + split; [discriminate|]. intros [b Hb]. rewrite append_cons in Hb. discriminate.
    + change (String.prefix (String c p) (String d s))
        with (if ascii_dec c d then String.prefix p s else false).
      destruct (ascii_dec c d) as [->|Hne].
      * rewrite IH. split; intros [b Hb]; exists b.
        -- rewrite append_cons. now rewrite Hb.
        -- rewrite append_cons in Hb. now inversion Hb.
      * split; [discriminate|]. intros [b Hb]. rewrite append_cons in Hb.
        inversion Hb. congruence.
Qed.

Lemma contains_cons (needle : string) (c : ascii) (t : string) :
  contains needle (String c t)
  = String.prefix needle (String c t) || contains needle t.
Proof. reflexivity. Qed.

Lemma contains_empty (needle : string) :
  contains needle "" = String.prefix needle "" || false.
Proof. reflexivity. Qed.

Lemma contains_append (needle hay : string) :
  contains needle hay = true <->
  exists a b, hay = String.append a (String.append needle b).
Proof.
  induction hay as [|c t IH].
  - rewrite contains_empty, orb_false_r, prefix_append. split.
    + intros [b Hb]. now exists ""%string, b.
    + intros (a & b & H). destruct a as [|c a]; [now exists b|].
      rewrite append_cons in H. discriminate.
  - rewrite contains_cons, orb_true_iff, prefix_append, IH. split.
    + intros [[b Hb]|(a & b & H)].
      * now exists ""%string, b.
      * exists (String c a), b. rewrite append_cons. now rewrite H.
    + intros (a & b & H). destruct a as [|d a].
      * left. now exists b.
      * right. rewrite append_cons in H. inversion H. now exists a, b.
Qed.

Lemma central_ou_domain_spec company u :
  central_ou_domain company u = true <-> central_unit_of company u.
Proof.
  unfold central_ou_domain, central_unit_of, ilike.
  rewrite andb_true_iff, orb_true_iff, id_eq_true, String.eqb_eq.
  change (lower "Central") with "central"%string.
  now rewrite contains_append.
Qed.

Lemma ou_cash_journal_domain_spec company u j :
  ou_cash_journal_domain company u j = true <-> cash_journal_of company (Some u) j.
Proof.
  unfold ou_cash_journal_domain, cash_journal_of.
  rewrite !andb_true_iff, String.eqb_eq, !id_eq_true. split.
  - intros [[? ?] ?]. repeat split; try assumption. now intros u' [= <-].
  - intros (? & ? & Hu). repeat split; try assumption. now apply Hu.
Qed.

Lemma browse_exists_Some env i j :
  browse_exists env i = Some j -> In j (account_journal env) /\ j_id j = i.
Proof.
  unfold browse_exists. intros H. apply find_some in H as [Hin Hid].
  split; [assumption|]. now apply Z.eqb_eq.
Qed.

Lemma browse_exists_None env i :
  browse_exists env i = None -> forall j, In j (account_journal env) -> j_id j <> i.
Proof.
  unfold browse_exists. intros H j Hin Hid.
  pose proof (find_none _ _ H j Hin) as Hf. simpl in Hf.
  apply Z.eqb_neq in Hf. contradiction.
Qed.

Lemma central_configured_Some env company central_id j :
  central_configured env company central_id = Some j <->
  central_id <> 0 /\ browse_exists env central_id = Some j
  /\ Some (j_company_id j) = company_id_of company /\ j_type j = "cash"%string.
Proof.
  unfold central_configured. destruct (Z.eqb_spec central_id 0) as [->|Hnz].
  - split; [discriminate|]. intros [H _]. congruence.
  - destruct (browse_exists env central_id) as [j0|].
    + destruct (id_eq _ _ && String.eqb _ _) eqn:E.
      * apply andb_true_iff in E as [E1 E2].
        apply id_eq_true in E1. apply String.eqb_eq in E2. split.
        -- intros [= <-]. auto.
        -- intros (_ & [= <-] & _). reflexivity.
      * split; [discriminate|]. intros (_ & [= ->] & H1 & H2).
        apply id_eq_true in H1. apply String.eqb_eq in H2.
        rewrite H1, H2 in E. discriminate.
    + split; [discriminate|]. intros (_ & H & _). discriminate.
Qed.

Lemma central_fallback_Some env company j :
  central_fallback env company = Some j ->
  exists u,
    In u (operating_unit env) /\ central_unit_of company u
    /\ In j (account_journal env) /\ cash_journal_of company (Some u) j.
Proof.
  unfold central_fallback, search_first.
  destruct (List.find (central_ou_domain company) _) as [u|] eqn:Eu; [|discriminate].
  destruct (List.find (ou_cash_journal_domain company u) _) as [j0|] eqn:Ej; [|discriminate].
  intros [= <-]. apply find_some in Eu as [Hu Hdu]. apply find_some in Ej as [Hj Hdj].
  exists u. split; [assumption|]. split; [now apply central_ou_domain_spec|].
  split; [assumption|]. now apply ou_cash_journal_domain_spec.
Qed.

Lemma central_fallback_None env company :
  central_fallback env company = None ->
  (forall u, In u (operating_unit env) -> ~ central_unit_of company u)
  \/ (exists u, In u (operating_unit env) /\ central_unit_of company u
                /\ forall j, In j (account_journal env) ->
                             ~ cash_journal_of company (Some u) j).
Proof.
  unfold central_fallback, search_first.
  destruct (List.find (central_ou_domain company) _) as [u|] eqn:Eu.
  - destruct (List.find (ou_cash_journal_domain company u) _) as [j0|] eqn:Ej; [discriminate|].
    intros _. right. apply find_some in Eu as [Hu Hdu]. exists u.
    split; [assumption|]. split; [now apply central_ou_domain_spec|].
    intros j Hj Hc. apply ou_cash_journal_domain_spec in Hc.
    pose proof (find_none _ _ Ej j Hj) as Hf. simpl in Hf. congruence.
  - intros _. left. intros u Hu Hc. apply central_ou_domain_spec in Hc.
    pose proof (find_none _ _ Eu u Hu) as Hf. simpl in Hf. congruence.
Qed.

(** C4, as amended: when the value of the parameter
    [cash_transfer.central_journal_id] is absent, empty or converts to an
    integer [central_id], [_get_central_cash_journal] returns the journal
    of that id whenever it is not 0, the journal exists, is of the company
    and of type cash, whatever the fallback would find; in every other
    case it returns what the fallback finds.  A journal found by the
    fallback is a cash journal of the company tagged with a unit of the
    company whose name contains 'Central' whatever the case or whose code
    is 'CENTRAL'; the fallback finds nothing only when the company has no
    such unit or when the unit it picked has no cash journal. *)
Theorem central_journal_resolution (env : Env) (company : option Company) (central_id : Z) :
  int_or_0 (get_param env "cash_transfer.central_journal_id" "0") = inr central_id ->
  (forall j,
      central_id <> 0 -> browse_exists env central_id = Some j ->
      Some (j_company_id j) = company_id_of company -> j_type j = "cash"%string ->
      _get_central_cash_journal env company = inr (Some j))
  /\ ((central_id = 0 \/ browse_exists env central_id = None
       \/ (exists j, browse_exists env central_id = Some j
                     /\ ~ (Some (j_company_id j) = company_id_of company
                           /\ j_type j = "cash"%string))) ->
      _get_central_cash_journal env company = inr (central_fallback env company))
  /\ (forall j,
         central_fallback env company = Some j ->
         exists u, In u (operating_unit env) /\ central_unit_of company u
                   /\ In j (account_journal env) /\ cash_journal_of company (Some u) j)
  /\ (central_fallback env company = None ->
      (forall u, In u (operating_unit env) -> ~ central_unit_of company u)
      \/ (exists u, In u (operating_unit env) /\ central_unit_of company u
                    /\ forall j, In j (account_journal env) ->
                                 ~ cash_journal_of company (Some u) j)).
Proof.
  intros Hid. rewrite (get_central_cash_journal_returns env company central_id Hid).
  split; [|split; [|split]].
  - intros j Hnz Hb Hc Ht.
    assert (H : central_configured env company central_id = Some j)
      by (apply central_configured_Some; auto).
    now rewrite H.
  - intros Hno. destruct (central_configured env company central_id) as [j|] eqn:E;
      [|reflexivity].
    apply central_configured_Some in E as (Hnz & Hb & Hc & Ht).
    destruct Hno as [H0|[Hn|(j' & Hj' & Hnot)]]; [contradiction|congruence|].
    rewrite Hb in Hj'. inversion Hj'; subst j'. destruct Hnot. now split.
  - apply central_fallback_Some.
  - apply central_fallback_None.
Qed.

(** In [Example.env_configured] the parameter names the cash journal J3
    while the fallback finds J2, the journal of the unit 'Casa central':
    the journal of the parameter is returned. *)
Lemma central_journal_resolution_witness :
  central_fallback Example.env_configured (Some Example.company) = Some Example.J2
  /\ _get_central_cash_journal Example.env_configured (Some Example.company)
     = inr (Some Example.J3).
Proof.
  split; [reflexivity|].
  apply (proj1 (central_journal_resolution Example.env_configured
                  (Some Example.company) 3 eq_refl) Example.J3).
  - discriminate.
  - reflexivity.
  - reflexivity.
  - reflexivity.
Defined.

(** In [Example.env_text] the value of the parameter is the text
    'central': it names no journal and the fallback finds J2, but the
    method raises the conversion error instead of returning J2. *)
Lemma central_journal_text_parameter_raises :
  int "central" = inl ValueError
  /\ central_fallback Example.env_text (Some Example.company) = Some Example.J2
  /\ _get_central_cash_journal Example.env_text (Some Example.company) = inl ValueError
  /\ ~ (exists central,
           _get_central_cash_journal Example.env_text (Some Example.company)
           = inr central).
Proof.
  split; [reflexivity|]. split; [reflexivity|]. split; [reflexivity|].
  intros [central H]. discriminate H.
Qed.

(** ** The tables *)

Lemma top_id_bound {A : Type} (table : gmap Z A) :
  0 <= top_id table /\ forall k, is_Some (table !! k) -> k <= top_id table.
Proof.
  unfold top_id.
  apply (map_fold_weak_ind
           (fun r (m : gmap Z A) => 0 <= r /\ forall k, is_Some (m !! k) -> k <= r)).
  - split; [lia|]. intros k [x Hx]. rewrite lookup_empty in Hx. discriminate.
  - intros i x m r Hi [H0 IH]. split; [lia|]. intros k Hk.
    destruct (decide (i = k)) as [->|Hne]; [lia|].
    rewrite lookup_insert_ne in Hk by done. specialize (IH k Hk). lia.
Qed.

Lemma next_id_fresh {A : Type} (table : gmap Z A) : table !! next_id table = None.
Proof.
  unfold next_id. destruct (table !! (1 + top_id table)) eqn:E; [|reflexivity].
  pose proof (proj2 (top_id_bound table) (1 + top_id table) (ex_intro _ _ E)). lia.
Qed.

Lemma booked_moves_size i rec db :
  size (account_move (booked i rec db)) = S (size (account_move db)).
Proof. simpl. apply map_size_insert_None, next_id_fresh. Qed.

Lemma booked_moves_old i rec db k m :
  account_move db !! k = Some m -> account_move (booked i rec db) !! k = Some m.
Proof.
  intros H. simpl. rewrite lookup_insert_ne; [assumption|].
  intros <-. rewrite next_id_fresh in H. discriminate.
Qed.

Lemma booked_moves_new i rec db k m :
  account_move (booked i rec db) !! k = Some m ->
  account_move db !! k = Some m
  \/ (account_move db !! k = None /\ m = transfer_move i rec).
Proof.
  simpl. destruct (decide (next_id (account_move db) = k)) as [<-|Hne].
  - rewrite lookup_insert_eq. intros [= <-]. right. split; [apply next_id_fresh|reflexivity].
  - rewrite lookup_insert_ne by assumption. now left.
Qed.

Lemma booked_transfer_validated i rec db :
  cash_transfer (booked i rec db) !! i = Some (set_state "validated" rec).
Proof. simpl. apply lookup_insert_eq. Qed.

Lemma booked_keeps_validated i rec db k r :
  cash_transfer db !! k = Some r -> state r = "validated"%string ->
  exists r', cash_transfer (booked i rec db) !! k = Some r'
             /\ state r' = "validated"%string.
Proof.
  intros Hk Hs. simpl. destruct (decide (i = k)) as [->|Hne].
  - rewrite lookup_insert_eq. eexists. split; reflexivity.
  - rewrite lookup_insert_ne by assumption. eauto.
Qed.

(** ** [action_validate] on one record *)

Lemma posted_new_move i rec :
  posted (new_move
            (build_move_vals i rec
               (incoming_line rec (_main_account (journal_id_to rec)))
               (outgoing_line rec (_main_account (journal_id_from rec)))))
  = transfer_move i rec.
Proof.
  unfold posted, new_move, build_move_vals, transfer_move.
  cbn [mv_ref mv_date mv_journal_id mv_line_ids mv_company_id
       m_date m_journal_id m_ref m_lines m_company_id].
  rewrite percent_ref. reflexivity.
Qed.

(** The loop body, with the monad unfolded: the checks in the order of
    the code, each leaving the tables as they are, then the booking. *)
Lemma validate_rec_eq env i db :
  validate_rec env i db =
  match cash_transfer db !! i with
  | None => (db, inl MissingError)
  | Some rec =>
      if Qle_bool (amount rec) 0 then (db, inl InvalidAmount) else
      if negb (truthy (journal_id_from rec)) || negb (truthy (journal_id_to rec))
      then (db, inl MissingJournal) else
      if journal_eq (journal_id_from rec) (journal_id_to rec)
      then (db, inl SameJournal) else
      match _get_central_cash_journal env (company_id rec) with
      | inl e => (db, inl e)
      | inr central =>
          if truthy central && negb (journal_eq (journal_id_to rec) central)
          then (db, inl DestinationMustBeCentral) else
          if negb (truthy (_main_account (journal_id_from rec)))
             || negb (truthy (_main_account (journal_id_to rec)))
          then (db, inl MissingJournalAccount)
          else (booked i rec db, inr tt)
      end
  end.
Proof.
  unfold validate_rec, mbind, M_bind, read, raise, lift.
  destruct (cash_transfer db !! i) as [rec|] eqn:Hrec; [|reflexivity].
  destruct (Qle_bool (amount rec) 0); [reflexivity|].
  destruct (negb (truthy (journal_id_from rec)) || negb (truthy (journal_id_to rec)));
    [reflexivity|].
  destruct (journal_eq (journal_id_from rec) (journal_id_to rec)); [reflexivity|].
  destruct (_get_central_cash_journal env (company_id rec)) as [e|central];
    [reflexivity|].
  destruct (truthy central && negb (journal_eq (journal_id_to rec) central));
    [reflexivity|].
  destruct (negb (truthy (_main_account (journal_id_from rec)))
            || negb (truthy (_main_account (journal_id_to rec)))); [reflexivity|].
  rewrite build_lines_spec.
  unfold account_move_create, action_post, write_state, booked. simpl.
  rewrite alter_insert_eq, posted_new_move.
  now rewrite (alter_alt_Some _ _ _ _ Hrec).
Qed.

Lemma action_validate_one env i db :
  action_validate env [i] db =
  match validate_rec env i db with
  | (db', inr _) => (db', inr true)
  | (db', inl e) => (db', inl e)
  end.
Proof.
  unfold action_validate, for_each, mbind, M_bind, mret, M_ret.
  now destruct (validate_rec env i db) as [db' [e|[]]].
Qed.

Lemma validate_rec_raises env i db db' e :
  validate_rec env i db = (db', inl e) -> db' = db.
Proof.
  rewrite validate_rec_eq. intros H.
  repeat match type of H with
         | context [match ?x with _ => _ end] => destruct x
         end; congruence.
Qed.

Lemma checks_pass_books env i db rec :
  cash_transfer db !! i = Some rec -> checks_pass env rec ->
  validate_rec env i db = (booked i rec db, inr tt).
Proof.
  intros Hrec (Hpos & jf & jt & Hf & Ht & Hne & (central & Hc & Hcentral) & Haf & Hat).
  assert (H1 : Qle_bool (amount rec) 0 = false).
  { apply not_true_is_false. intros H. apply Qle_bool_iff in H.
    now apply Qlt_not_le in Hpos. }
  assert (H2 : negb (truthy (journal_id_from rec)) || negb (truthy (journal_id_to rec))
               = false) by now rewrite Hf, Ht.
  assert (H3 : journal_eq (journal_id_from rec) (journal_id_to rec) = false)
    by (rewrite Hf, Ht; apply Z.eqb_neq; assumption).
  assert (H4 : truthy central && negb (journal_eq (journal_id_to rec) central) = false).
  { rewrite Ht. destruct central as [c|]; [|reflexivity].
    unfold journal_eq. simpl. now rewrite (Hcentral c eq_refl), Z.eqb_refl. }
  assert (H5 : negb (truthy (_main_account (journal_id_from rec)))
               || negb (truthy (_main_account (journal_id_to rec))) = false).
  { rewrite Hf, Ht. apply truthy_is_Some in Haf, Hat. now rewrite Haf, Hat. }
  now rewrite validate_rec_eq, Hrec, H1, H2, H3, Hc, H4, H5.
Qed.

Lemma validate_rec_returns env i db db' :
  validate_rec env i db = (db', inr tt) ->
  exists rec, cash_transfer db !! i = Some rec /\ checks_pass env rec
              /\ db' = booked i rec db.
Proof.
  rewrite validate_rec_eq.
  destruct (cash_transfer db !! i) as [rec|] eqn:Hrec; [|discriminate].
  destruct (Qle_bool (amount rec) 0) eqn:Ha; [discriminate|].
  destruct (negb (truthy (journal_id_from rec)) || negb (truthy (journal_id_to rec)))
    eqn:Hset; [discriminate|].
  destruct (journal_eq (journal_id_from rec) (journal_id_to rec)) eqn:Heq;
    [discriminate|].
  destruct (_get_central_cash_journal env (company_id rec)) as [e|central] eqn:Hc;
    [discriminate|].
  destruct (truthy central && negb (journal_eq (journal_id_to rec) central)) eqn:Hcen;
    [discriminate|].
  destruct (negb (truthy (_main_account (journal_id_from rec)))
            || negb (truthy (_main_account (journal_id_to rec)))) eqn:Hacc;
    [discriminate|].
  intros [= <-]. exists rec. split; [reflexivity|]. split; [|reflexivity].
  destruct (journal_id_from rec) as [jf|] eqn:Hf; [|discriminate].
  destruct (journal_id_to rec) as [jt|] eqn:Ht; [|now rewrite orb_true_r in Hset].
  apply orb_false_iff in Hacc as [Haf Hat].
  apply negb_false_iff in Haf, Hat.
  split.
  - apply Qnot_le_lt. intros H. apply Qle_bool_iff in H. congruence.
  - exists jf, jt.
    split; [exact Hf|]. split; [exact Ht|].
    split; [now apply Z.eqb_neq in Heq|].
    split; [|split; now apply truthy_is_Some].
    exists central. split; [exact Hc|]. intros c ->. simpl in Hcen.
    apply negb_false_iff in Hcen. unfold journal_eq in Hcen. simpl in Hcen.
    now apply Z.eqb_eq in Hcen.
Qed.

Lemma balance_transfer_move i rec : (balance (m_lines (transfer_move i rec)) == 0)%Q.
Proof. unfold balance. simpl. ring. Qed.

(** C1, as amended: for a record with a strictly positive amount, both
    journals set and distinct, for which the resolution of the central
    journal returns (the parameter is absent, empty or converts to an
    integer) and returns either nothing or the destination journal, and
    whose two journals have a main account, [action_validate] returns
    [True] and leaves the tables with exactly one more move, stored under
    an id that was free: it is posted, dated of the date of the record,
    in the destination journal, and carries exactly two lines, the first
    with the main account of the destination journal, debit the amount
    and credit zero, the second with the main account of the source
    journal, debit zero and credit the amount; debits minus credits is
    zero, and the record is now in the state 'validated'. *)
Theorem validate_books_one_balanced_move (env : Env) (db : DB) (i : Z) (rec : Transfer)
  (jf jt : Journal) (central : option Journal) :
  cash_transfer db !! i = Some rec ->
  (0 < amount rec)%Q ->
  journal_id_from rec = Some jf ->
  journal_id_to rec = Some jt ->
  j_id jf <> j_id jt ->
  _get_central_cash_journal env (company_id rec) = inr central ->
  (forall c, central = Some c -> j_id jt = j_id c) ->
  is_Some (_main_account (Some jf)) ->
  is_Some (_main_account (Some jt)) ->
  exists db' k mv line_in line_out,
    action_validate env [i] db = (db', inr true)
    /\ account_move db !! k = None
    /\ account_move db' = <[k := mv]> (account_move db)
    /\ cash_transfer db' = <[i := set_state "validated" rec]> (cash_transfer db)
    /\ state (set_state "validated" rec) = "validated"%string
    /\ m_state mv = "posted"%string
    /\ m_date mv = date rec
    /\ m_journal_id mv = Some (j_id jt)
    /\ m_lines mv = [line_in; line_out]
    /\ l_account_id line_in = _main_account (Some jt)
    /\ l_debit line_in = amount rec /\ l_credit line_in = 0%Q
    /\ l_account_id line_out = _main_account (Some jf)
    /\ l_debit line_out = 0%Q /\ l_credit line_out = amount rec
    /\ (balance (m_lines mv) == 0)%Q.
Proof.
  intros Hrec Hpos Hf Ht Hne Hc Hcentral Haf Hat.
  assert (Hpass : checks_pass env rec).
  { split; [assumption|]. exists jf, jt. repeat (split; [assumption|]).
    split; [|split; assumption]. exists central. now split. }
  exists (booked i rec db), (next_id (account_move db)), (transfer_move i rec),
    (incoming_line rec (_main_account (journal_id_to rec))),
    (outgoing_line rec (_main_account (journal_id_from rec))).
  rewrite action_validate_one, (checks_pass_books env i db rec Hrec Hpass).
  split; [reflexivity|]. split; [apply next_id_fresh|].
  rewrite Hf, Ht. repeat (split; [reflexivity|]).
  unfold transfer_move. rewrite Hf, Ht. repeat (split; [reflexivity|]).
  apply (balance_transfer_move i rec).
Qed.

(** The transfer of 100 from J1 to the central journal J2 is booked. *)
Lemma validate_books_one_balanced_move_witness :
  exists db',
    action_validate Example.env [8]
      (Example.db_of (Example.transfer (Some Example.J1) (Some Example.J2) 100))
    = (db', inr true)
    /\ size (account_move db') = 1%nat.
Proof.
  destruct (validate_books_one_balanced_move Example.env
              (Example.db_of (Example.transfer (Some Example.J1) (Some Example.J2) 100))
              8 (Example.transfer (Some Example.J1) (Some Example.J2) 100)
              Example.J1 Example.J2 (Some Example.J2))
    as (db' & k & mv & li & lo & Hrun & _ & Hmoves & _).
  - reflexivity.
  - reflexivity.
  - reflexivity.
  - reflexivity.
  - discriminate.
  - reflexivity.
  - intros c [= <-]. reflexivity.
  - eexists. reflexivity.
  - eexists. reflexivity.
  - exists db'. split; [exact Hrun|].
    rewrite Hmoves. simpl. rewrite insert_empty. apply map_size_singleton.
Defined.

(** With the parameter of [Example.env_text], the same transfer meets
    every condition of C1 as first stated (the destination is the very journal
    the unit 'Casa central' designates, and no other central journal is
    resolved) and yet no move is booked: the conversion error is raised
    and the tables are as they were. *)
Lemma validate_text_parameter_books_nothing :
  (0 < amount (Example.transfer (Some Example.J1) (Some Example.J2) 100))%Q
  /\ j_id Example.J1 <> j_id Example.J2
  /\ central_fallback Example.env_text (Some Example.company) = Some Example.J2
  /\ ~ (exists c, _get_central_cash_journal Example.env_text (Some Example.company)
                  = inr (Some c) /\ j_id Example.J2 <> j_id c)
  /\ is_Some (_main_account (Some Example.J1))
  /\ is_Some (_main_account (Some Example.J2))
  /\ action_validate Example.env_text [8]
       (Example.db_of (Example.transfer (Some Example.J1) (Some Example.J2) 100))
     = (Example.db_of (Example.transfer (Some Example.J1) (Some Example.J2) 100),
        inl ValueError).
Proof.
  split; [reflexivity|]. split; [discriminate|]. split; [reflexivity|].
  split; [intros (c & H & _); discriminate H|].
  split; [eexists; reflexivity|]. split; [eexists; reflexivity|].
  reflexivity.
Qed.

(** ** The order of the checks *)

(** C2, as amended: [action_validate] on a record checks, in this order
    and stopping at the first violation with the tables left as they
    were, (1) that the amount is strictly positive, else InvalidAmount,
    (2) that both journals are set, else MissingJournal, (3) that they
    differ, else SameJournal; it then resolves the central journal, and
    when the resolution returns it checks (4) that the destination is the
    central journal if there is one, else DestinationMustBeCentral, and
    (5) that both journals have a main account, else
    MissingJournalAccount.  When the resolution raises (the parameter
    does not convert to an integer) its error is raised in place of the
    checks (4) and (5), the tables left as they were. *)
Theorem validate_checks_in_order (env : Env) (db : DB) (i : Z) (rec : Transfer) :
  cash_transfer db !! i = Some rec ->
  ((amount rec <= 0)%Q -> action_validate env [i] db = (db, inl InvalidAmount))
  /\ ((0 < amount rec)%Q ->
      (journal_id_from rec = None \/ journal_id_to rec = None ->
       action_validate env [i] db = (db, inl MissingJournal))
      /\ (forall jf jt,
             journal_id_from rec = Some jf -> journal_id_to rec = Some jt ->
             (j_id jf = j_id jt ->
              action_validate env [i] db = (db, inl SameJournal))
             /\ (j_id jf <> j_id jt ->
                 (forall e,
                     _get_central_cash_journal env (company_id rec) = inl e ->
                     action_validate env [i] db = (db, inl e))
                 /\ (forall central,
                        _get_central_cash_journal env (company_id rec) = inr central ->
                        (forall c, central = Some c -> j_id jt <> j_id c ->
                                   action_validate env [i] db
                                   = (db, inl DestinationMustBeCentral))
                        /\ ((forall c, central = Some c -> j_id jt = j_id c) ->
                            _main_account (Some jf) = None
                            \/ _main_account (Some jt) = None ->
                            action_validate env [i] db
                            = (db, inl MissingJournalAccount)))))).
Proof.
  intros Hrec. rewrite action_validate_one, validate_rec_eq, Hrec. split.
  - intros Hle. apply Qle_bool_iff in Hle. now rewrite Hle.
  - intros Hpos.
    assert (H1 : Qle_bool (amount rec) 0 = false).
    { apply not_true_is_false. intros H. apply Qle_bool_iff in H.
      now apply Qlt_not_le in Hpos. }
    rewrite H1. split.
    + intros [H|H]; rewrite H; [reflexivity|]. now rewrite orb_true_r.
    + intros jf jt Hf Ht. rewrite Hf, Ht.
      change (negb (truthy (Some jf)) || negb (truthy (Some jt))) with false.
      change (journal_eq (Some jf) (Some jt)) with (j_id jf =? j_id jt).
      split.
      * intros Heq. now rewrite Heq, Z.eqb_refl.
      * intros Hne. apply Z.eqb_neq in Hne. rewrite Hne. split.
        -- intros e He. now rewrite He.
        -- intros central Hc. rewrite Hc. split.
           ++ intros c -> Hdiff.
              change (truthy (Some c) && negb (journal_eq (Some jt) (Some c)))
                with (negb (j_id jt =? j_id c)).
              apply Z.eqb_neq in Hdiff. now rewrite Hdiff.
           ++ intros Hsame Hacc.
              assert (H4 : truthy central && negb (journal_eq (Some jt) central) = false).
              { destruct central as [c|]; [|reflexivity].
                unfold journal_eq. simpl. now rewrite (Hsame c eq_refl), Z.eqb_refl. }
              rewrite H4. destruct Hacc as [H|H]; rewrite H; [reflexivity|].
              now rewrite orb_true_r.
Qed.

(** A transfer of amount zero is refused first. *)
Lemma validate_checks_in_order_witness :
  action_validate Example.env [8]
    (Example.db_of (Example.transfer (Some Example.J1) (Some Example.J1) 0))
  = (Example.db_of (Example.transfer (Some Example.J1) (Some Example.J1) 0),
     inl InvalidAmount).
Proof.
  apply (proj1 (validate_checks_in_order Example.env
                  (Example.db_of (Example.transfer (Some Example.J1) (Some Example.J1) 0))
                  8 (Example.transfer (Some Example.J1) (Some Example.J1) 0) eq_refl)).
  discriminate.
Defined.

(** With the parameter of [Example.env_text], a transfer of 100 from J4,
    which has no account, to the central journal J2 violates the check
    (5) and no check before it, whether the central journal is taken to
    be J2 or none; the error raised is not MissingJournalAccount but the
    conversion error. *)
Lemma validate_text_parameter_hides_missing_account :
  (0 < amount (Example.transfer (Some Example.J4) (Some Example.J2) 100))%Q
  /\ j_id Example.J4 <> j_id Example.J2
  /\ central_fallback Example.env_text (Some Example.company) = Some Example.J2
  /\ ~ (exists c, _get_central_cash_journal Example.env_text (Some Example.company)
                  = inr (Some c) /\ j_id Example.J2 <> j_id c)
  /\ _main_account (Some Example.J4) = None
  /\ action_validate Example.env_text [8]
       (Example.db_of (Example.transfer (Some Example.J4) (Some Example.J2) 100))
     = (Example.db_of (Example.transfer (Some Example.J4) (Some Example.J2) 100),
        inl ValueError)
  /\ ValueError <> MissingJournalAccount.
Proof.
  split; [reflexivity|]. split; [discriminate|]. split; [reflexivity|].
  split; [intros (c & H & _); discriminate H|].
  split; [reflexivity|]. split; [reflexivity|]. discriminate.
Qed.

(** C3: when a central journal is resolved for the company of the record
    and the destination journal is another journal, the amount being
    strictly positive and both journals set and distinct,
    [action_validate] raises DestinationMustBeCentral and leaves the
    tables as they were: no move is created. *)
Theorem validate_destination_must_be_central (env : Env) (db : DB) (i : Z)
  (rec : Transfer) (jf jt c : Journal) :
  cash_transfer db !! i = Some rec ->
  (0 < amount rec)%Q ->
  journal_id_from rec = Some jf ->
  journal_id_to rec = Some jt ->
  j_id jf <> j_id jt ->
  _get_central_cash_journal env (company_id rec) = inr (Some c) ->
  j_id jt <> j_id c ->
  action_validate env [i] db = (db, inl DestinationMustBeCentral)
  /\ account_move (fst (action_validate env [i] db)) = account_move db.
Proof.
  intros Hrec Hpos Hf Ht Hne Hc Hdiff.
  assert (H : action_validate env [i] db = (db, inl DestinationMustBeCentral)).
  { rewrite action_validate_one, validate_rec_eq, Hrec, Hf, Ht, Hc.
    replace (Qle_bool (amount rec) 0) with false.
    2:{ symmetry. apply not_true_is_false. intros H. apply Qle_bool_iff in H.
        now apply Qlt_not_le in Hpos. }
    change (negb (truthy (Some jf)) || negb (truthy (Some jt))) with false.
    change (journal_eq (Some jf) (Some jt)) with (j_id jf =? j_id jt).
    change (truthy (Some c) && negb (journal_eq (Some jt) (Some c)))
      with (negb (j_id jt =? j_id c)).
    apply Z.eqb_neq in Hne, Hdiff. now rewrite Hne, Hdiff. }
  now rewrite H.
Qed.

(** The second scenario of the specification: the destination is set to
    J4, a cash journal without unit, while the central journal is J2. *)
Lemma validate_destination_must_be_central_witness :
  action_validate Example.env [8]
    (Example.db_of (Example.transfer (Some Example.J1) (Some Example.J4) 100))
  = (Example.db_of (Example.transfer (Some Example.J1) (Some Example.J4) 100),
     inl DestinationMustBeCentral).
Proof.
  apply (validate_destination_must_be_central Example.env
           (Example.db_of (Example.transfer (Some Example.J1) (Some Example.J4) 100))
           8 (Example.transfer (Some Example.J1) (Some Example.J4) 100)
           Example.J1 Example.J4 Example.J2); try reflexivity; discriminate.
Defined.

(** ** The state of the record is written, never read *)

Lemma checks_pass_set_state env rec s :
  checks_pass env rec -> checks_pass env (set_state s rec).
Proof. intros H. exact H. Qed.

Lemma action_validate_books env i db rec :
  cash_transfer db !! i = Some rec -> checks_pass env rec ->
  action_validate env [i] db = (booked i rec db, inr true).
Proof.
  intros Hrec Hpass.
  now rewrite action_validate_one, (checks_pass_books env i db rec Hrec Hpass).
Qed.

Lemma validate_rec_state_irrelevant env i db s :
  validate_rec env i (fst (write_state i s db)) =
  match validate_rec env i db with
  | (db', inr u) => (db', inr u)
  | (_, inl e) => (fst (write_state i s db), inl e)
  end.
Proof.
  rewrite !validate_rec_eq. unfold write_state. simpl.
  rewrite lookup_alter_eq.
  destruct (cash_transfer db !! i) as [rec|] eqn:Hrec; simpl; [|reflexivity].
  destruct (Qle_bool (amount rec) 0); [reflexivity|].
  destruct (negb (truthy (journal_id_from rec)) || negb (truthy (journal_id_to rec)));
    [reflexivity|].
  destruct (journal_eq (journal_id_from rec) (journal_id_to rec)); [reflexivity|].
  destruct (_get_central_cash_journal env (company_id rec)) as [e|central];
    [reflexivity|].
  destruct (truthy central && negb (journal_eq (journal_id_to rec) central));
    [reflexivity|].
  destruct (negb (truthy (_main_account (journal_id_from rec)))
            || negb (truthy (_main_account (journal_id_to rec)))); [reflexivity|].
  unfold booked. simpl. now rewrite insert_alter_eq.
Qed.

Lemma validate_times_books env i rec n db :
  cash_transfer db !! i = Some rec -> checks_pass env rec ->
  exists db',
    validate_times env i n db = (db', inr true)
    /\ size (account_move db') = (size (account_move db) + n)%nat
    /\ (forall k m, account_move db !! k = Some m -> account_move db' !! k = Some m)
    /\ (forall k m, account_move db' !! k = Some m -> account_move db !! k = None ->
                    m = transfer_move i rec)
    /\ cash_transfer db' !! i
       = Some (match n with O => rec | S _ => set_state "validated" rec end).
Proof.
  intros Hrec Hpass. induction n as [|n IH].
  - exists db. simpl. split; [reflexivity|]. split; [lia|]. split; [auto|].
    split; [congruence|assumption].
  - destruct IH as (db1 & Hrun & Hsize & Hold & Hnew & Hi).
    set (rec1 := match n with O => rec | S _ => set_state "validated" rec end) in *.
    assert (Hpass1 : checks_pass env rec1) by (destruct n; exact Hpass).
    assert (Hmove : transfer_move i rec1 = transfer_move i rec) by now destruct n.
    exists (booked i rec1 db1). simpl. rewrite Hrun.
    split; [now apply action_validate_books|].
    split; [rewrite map_size_insert_None by apply next_id_fresh; lia|].
    split.
    { intros k m Hk. apply (booked_moves_old i rec1 db1), Hold, Hk. }
    split.
    { intros k m Hk Hfree.
      destruct (booked_moves_new i rec1 db1 k m Hk) as [Hk1|[_ ->]];
        [now apply (Hnew k m)|assumption]. }
    rewrite lookup_insert_eq. now destruct n.
Qed.

(** C8: [action_validate] never reads the state of the record.  With
    the state of the record [i] overwritten by any value beforehand, the
    call has the same outcome and leaves the same moves, and the same
    tables when it returns.  Whatever its state, 'validated' included, a
    record that passes the five checks gets a new posted move and the
    state 'validated'; so [n] calls in a row all return [True] and leave
    [n] more moves, each the posted move of the transfer. *)
Theorem validate_never_reads_state (env : Env) (i : Z) (db : DB) :
  (forall s,
      snd (action_validate env [i] (fst (write_state i s db)))
      = snd (action_validate env [i] db)
      /\ account_move (fst (action_validate env [i] (fst (write_state i s db))))
         = account_move (fst (action_validate env [i] db))
      /\ (forall r, snd (action_validate env [i] db) = inr r ->
                    fst (action_validate env [i] (fst (write_state i s db)))
                    = fst (action_validate env [i] db)))
  /\ (forall rec,
         cash_transfer db !! i = Some rec -> checks_pass env rec ->
         action_validate env [i] db = (booked i rec db, inr true)
         /\ account_move db !! next_id (account_move db) = None
         /\ m_state (transfer_move i rec) = "posted"%string
         /\ state (set_state "validated" rec) = "validated"%string
         /\ forall n,
             exists db',
               validate_times env i n db = (db', inr true)
               /\ size (account_move db') = (size (account_move db) + n)%nat
               /\ (forall k m, account_move db !! k = Some m ->
                               account_move db' !! k = Some m)
               /\ (forall k m, account_move db' !! k = Some m ->
                               account_move db !! k = None ->
                               m = transfer_move i rec)).
Proof.
  split.
  - intros s. rewrite !action_validate_one, validate_rec_state_irrelevant.
    destruct (validate_rec env i db) as [db' [e|u]] eqn:E; simpl.
    + apply validate_rec_raises in E. subst db'.
      split; [reflexivity|]. split; [reflexivity|]. intros r [=].
    + repeat split.
  - intros rec Hrec Hpass.
    split; [now apply action_validate_books|].
    split; [apply next_id_fresh|]. split; [reflexivity|]. split; [reflexivity|].
    intros n. destruct (validate_times_books env i rec n db Hrec Hpass)
      as (db' & H1 & H2 & H3 & H4 & _).
    exists db'. auto.
Qed.

(** A record already in the state 'validated' is booked once more. *)
Lemma validate_never_reads_state_witness :
  exists db',
    validate_times Example.env 8 2
      (Example.db_of (set_state "validated"
                        (Example.transfer (Some Example.J1) (Some Example.J2) 100)))
    = (db', inr true)
    /\ size (account_move db') = 2%nat.
Proof.
  destruct (proj2 (validate_never_reads_state Example.env 8
              (Example.db_of (set_state "validated"
                 (Example.transfer (Some Example.J1) (Some Example.J2) 100))))
              (set_state "validated"
                 (Example.transfer (Some Example.J1) (Some Example.J2) 100))
              eq_refl)
    as (_ & _ & _ & _ & Hn).
  - split; [reflexivity|]. exists Example.J1, Example.J2.
    split; [reflexivity|]. split; [reflexivity|]. split; [discriminate|].
    split; [|split; eexists; reflexivity].
    exists (Some Example.J2). split; [reflexivity|]. intros c [= <-]. reflexivity.
  - destruct (Hn 2%nat) as (db' & Hrun & Hsize & _). exists db'.
    split; [exact Hrun|]. rewrite Hsize. reflexivity.
Defined.

(** ** [action_validate] on several records *)

Lemma action_validate_eq env self db :
  action_validate env self db =
  match for_each (validate_rec env) self db with
  | (db', inr _) => (db', inr true)
  | (db', inl e) => (db', inl e)
  end.
Proof.
  unfold action_validate, mbind, M_bind, mret, M_ret.
  now destruct (for_each (validate_rec env) self db) as [db' [e|[]]].
Qed.

Lemma for_each_cons env i t db :
  for_each (validate_rec env) (i :: t) db =
  match validate_rec env i db with
  | (db', inr _) => for_each (validate_rec env) t db'
  | (db', inl e) => (db', inl e)
  end.
Proof. reflexivity. Qed.

(** What a run of the loop that returns has done. *)
Lemma for_each_returns env pre db db1 :
  for_each (validate_rec env) pre db = (db1, inr tt) ->
  (forall k, In k pre ->
             exists r, cash_transfer db1 !! k = Some r /\ state r = "validated"%string)
  /\ size (account_move db1) = (size (account_move db) + length pre)%nat
  /\ (forall k m, account_move db1 !! k = Some m -> account_move db !! k = None ->
                  m_state m = "posted"%string)
  /\ (forall k m, account_move db !! k = Some m -> account_move db1 !! k = Some m)
  /\ (forall k r, cash_transfer db !! k = Some r -> state r = "validated"%string ->
                  exists r', cash_transfer db1 !! k = Some r'
                             /\ state r' = "validated"%string).
Proof.
  revert db. induction pre as [|a pre IH]; intros db H.
  - inversion H; subst db1. simpl. split; [intros k []|]. split; [lia|].
    split; [congruence|]. split; [auto|]. eauto.
  - rewrite for_each_cons in H.
    destruct (validate_rec env a db) as [dba [e|[]]] eqn:Ea; [discriminate|].
    apply validate_rec_returns in Ea as (rec & Hrec & Hpass & ->).
    destruct (IH _ H) as (Hval & Hsize & Hnew & Hold & Hkeep).
    split; [|split; [|split; [|split]]].
    + intros k [<-|Hk]; [|now apply Hval].
      apply (Hkeep a (set_state "validated" rec));
        [apply booked_transfer_validated|reflexivity].
    + rewrite Hsize, booked_moves_size. simpl. lia.
    + intros k m Hk Hfree.
      destruct (account_move (booked a rec db) !! k) as [m'|] eqn:Ek.
      * rewrite (Hold k m' Ek) in Hk. inversion Hk; subst m'.
        destruct (booked_moves_new a rec db k m Ek) as [Hk0|[_ ->]];
          [congruence|reflexivity].
      * now apply (Hnew k m).
    + intros k m Hk. apply Hold. now apply booked_moves_old.
    + intros k r Hk Hs.
      destruct (booked_keeps_validated a rec db k r Hk Hs) as (r' & Hk' & Hs').
      now apply (Hkeep k r').
Qed.

(** Where a run of the loop that raises has stopped. *)
Lemma for_each_raises env self db db' e :
  for_each (validate_rec env) self db = (db', inl e) ->
  exists pre i post,
    self = pre ++ i :: post
    /\ for_each (validate_rec env) pre db = (db', inr tt)
    /\ validate_rec env i db' = (db', inl e).
Proof.
  revert db. induction self as [|a t IH]; intros db H; [discriminate|].
  rewrite for_each_cons in H.
  destruct (validate_rec env a db) as [dba [e'|[]]] eqn:Ea.
  - inversion H; subst dba e'. pose proof (validate_rec_raises _ _ _ _ _ Ea) as ->.
    exists [], a, t. auto.
  - destruct (IH _ H) as (pre & i & post & -> & Hpre & Hi).
    exists (a :: pre), i, post. split; [reflexivity|].
    split; [|assumption]. now rewrite for_each_cons, Ea.
Qed.

(** C10: when [action_validate] raises on a recordset, it stopped at the
    first record [i] that fails, the records [pre] before it having been
    processed: the tables it leaves are those reached after [pre], in
    which every record of [pre] is in the state 'validated' and there is
    one more move for each of them, all the moves created being posted
    and none of the earlier moves touched.  Nothing is undone by the
    module when the record [i] fails. *)
Theorem validate_batch_keeps_earlier_bookings (env : Env) (self : list Z) (db db' : DB)
  (e : exn) :
  action_validate env self db = (db', inl e) ->
  exists pre i post,
    self = pre ++ i :: post
    /\ action_validate env pre db = (db', inr true)
    /\ action_validate env [i] db' = (db', inl e)
    /\ (forall k, In k pre ->
                  exists r, cash_transfer db' !! k = Some r
                            /\ state r = "validated"%string)
    /\ size (account_move db') = (size (account_move db) + length pre)%nat
    /\ (forall k m, account_move db' !! k = Some m -> account_move db !! k = None ->
                    m_state m = "posted"%string)
    /\ (forall k m, account_move db !! k = Some m -> account_move db' !! k = Some m).
Proof.
  rewrite action_validate_eq.
  destruct (for_each (validate_rec env) self db) as [db1 [e1|u]] eqn:E; [|discriminate].
  intros [= -> ->].
  destruct (for_each_raises env self db db' e E) as (pre & i & post & -> & Hpre & Hi).
  destruct (for_each_returns env pre db db' Hpre) as (Hval & Hsize & Hnew & Hold & _).
  exists pre, i, post. split; [reflexivity|].
  split; [now rewrite action_validate_eq, Hpre|].
  split; [now rewrite action_validate_one, Hi|].
  auto.
Qed.

(** Two records in one call, the second of amount zero: the call raises
    InvalidAmount, and the tables it leaves are those in which the first
    record is booked. *)
Lemma validate_batch_keeps_earlier_bookings_witness :
  exists pre i post,
    [8; 9] = pre ++ i :: post
    /\ action_validate Example.env pre Example.db_pair
       = (booked 8 (Example.transfer (Some Example.J1) (Some Example.J2) 100)
            Example.db_pair, inr true)
    /\ (forall k, In k pre ->
                  exists r,
                    cash_transfer
                      (booked 8 (Example.transfer (Some Example.J1) (Some Example.J2) 100)
                         Example.db_pair) !! k = Some r
                    /\ state r = "validated"%string).
Proof.
  destruct (validate_batch_keeps_earlier_bookings Example.env [8; 9] Example.db_pair
              (booked 8 (Example.transfer (Some Example.J1) (Some Example.J2) 100)
                 Example.db_pair)
              InvalidAmount)
    as (pre & i & post & Hself & Hpre & _ & Hval & _).
  - vm_compute. reflexivity.
  - exists pre, i, post. auto.
Defined.


(** ** Further properties of the journal resolution *)

Lemma central_journal_company_set env company j :
  _get_central_cash_journal env company = inr (Some j) ->
  exists c, company = Some c /\ j_company_id j = c_id c.
Proof.
  intros H.
  assert (Hc : Some (j_company_id j) = company_id_of company).
  { unfold _get_central_cash_journal in H.
    destruct (int_or_0 _) as [e|central_id]; [discriminate|].
    destruct (central_configured env company central_id) as [j0|] eqn:E.
    - inversion H; subst j0. now apply central_configured_Some in E as (_ & _ & Hc & _).
    - inversion H as [Hf].
      now apply central_fallback_Some in Hf as (u & _ & _ & _ & _ & Hc & _). }
  destruct company as [c|]; [|discriminate].
  exists c. split; [reflexivity|]. now inversion Hc.
Qed.

(** X1: whatever [_get_central_cash_journal] returns as central journal,
    by the parameter or by the fallback, is a journal of the directory,
    of type cash, of the company asked for, which is therefore not
    empty. *)
Theorem central_journal_is_cash_journal_of_company (env : Env)
  (company : option Company) (j : Journal) :
  _get_central_cash_journal env company = inr (Some j) ->
  In j (account_journal env)
  /\ j_type j = "cash"%string
  /\ exists c, company = Some c /\ j_company_id j = c_id c.
Proof.
  unfold _get_central_cash_journal.
  destruct (int_or_0 _) as [e|central_id]; [discriminate|].
  assert (Hco : forall j0, Some (j_company_id j0) = company_id_of company ->
                           exists c, company = Some c /\ j_company_id j0 = c_id c).
  { intros j0 H. destruct company as [c|]; [|discriminate].
    exists c. split; [reflexivity|]. now inversion H. }
  destruct (central_configured env company central_id) as [j0|] eqn:E.
  - intros [= ->]. apply central_configured_Some in E as (_ & Hb & Hc & Ht).
    apply browse_exists_Some in Hb as [Hin _]. auto.
  - intros [= H]. apply central_fallback_Some in H as (u & _ & _ & Hin & Ht & Hc & _).
    auto.
Qed.

Lemma central_journal_is_cash_journal_of_company_witness :
  In Example.J3 (account_journal Example.env_configured)
  /\ j_type Example.J3 = "cash"%string
  /\ exists c, Some Example.company = Some c /\ j_company_id Example.J3 = c_id c.
Proof.
  apply (central_journal_is_cash_journal_of_company Example.env_configured
           (Some Example.company) Example.J3).
  reflexivity.
Defined.

(** X2: for the empty company, [_find_cash_journal_by_ou] finds no
    journal, with or without unit, and [_get_central_cash_journal]
    returns no journal. *)
Theorem resolvers_find_nothing_for_empty_company (env : Env) (ou : option OperatingUnit)
  (central : option Journal) :
  _find_cash_journal_by_ou env None ou = None
  /\ (_get_central_cash_journal env None = inr central -> central = None).
Proof.
  split.
  - apply search_id_asc_None. intros j _. unfold cash_journal_domain. simpl.
    now rewrite andb_false_r.
  - intros H. destruct central as [j|]; [|reflexivity].
    apply central_journal_company_set in H as (c & Hc & _).
    discriminate.
Qed.

Lemma resolvers_find_nothing_for_empty_company_witness :
  _get_central_cash_journal Example.env_configured None = inr None.
Proof.
  destruct (_get_central_cash_journal Example.env_configured None)
    as [e|central] eqn:E; [discriminate E|].
  now rewrite (proj2 (resolvers_find_nothing_for_empty_company
                        Example.env_configured None central) E).
Defined.

(** X3: the unit only narrows the search of [_find_cash_journal_by_ou]:
    when a journal is found for a unit, a journal is found without unit
    as well, and its id is not greater. *)
Theorem find_cash_journal_unit_narrows (env : Env) (company : option Company)
  (u : OperatingUnit) (j : Journal) :
  _find_cash_journal_by_ou env company (Some u) = Some j ->
  exists j0,
    _find_cash_journal_by_ou env company None = Some j0 /\ j_id j0 <= j_id j.
Proof.
  unfold _find_cash_journal_by_ou. intros H.
  apply search_id_asc_Some in H as (Hin & Hd & _).
  assert (Hd0 : cash_journal_domain company None j = true).
  { apply cash_journal_domain_spec. apply cash_journal_domain_spec in Hd.
    destruct Hd as (Ht & Hc & _). repeat split; try assumption. intros u' [=]. }
  destruct (search_id_asc (cash_journal_domain company None) (account_journal env))
    as [j0|] eqn:E.
  - exists j0. split; [reflexivity|].
    apply search_id_asc_Some in E as (_ & _ & Hle). now apply Hle.
  - rewrite (proj1 (search_id_asc_None _ _) E j Hin) in Hd0. discriminate.
Qed.

Lemma find_cash_journal_unit_narrows_witness :
  exists j0,
    _find_cash_journal_by_ou Example.env (Some Example.company) None = Some j0
    /\ j_id j0 <= j_id Example.J2.
Proof.
  apply (find_cash_journal_unit_narrows Example.env (Some Example.company)
           Example.UC Example.J2).
  reflexivity.
Defined.

Lemma same_id_same_journal (l : list Journal) (j j' : Journal) :
  NoDup (List.map j_id l) -> In j l -> In j' l -> j_id j = j_id j' -> j = j'.
Proof.
  induction l as [|a t IH]; simpl; intros Hnd Hj Hj' Hid; [destruct Hj|].
  apply NoDup_cons in Hnd as [Ha Hnd].
  assert (Hina : forall x, In x t -> j_id x <> j_id a).
  { intros x Hx Hxa. apply Ha. rewrite <- Hxa.
    apply list_elem_of_In, in_map, Hx. }
  destruct Hj as [<-|Hj], Hj' as [<-|Hj'].
  - reflexivity.
  - destruct (Hina j' Hj'). now symmetry.
  - destruct (Hina j Hj). assumption.
  - now apply IH.
Qed.

(** X4: when the ids of the directory are pairwise distinct, the journal
    [_find_cash_journal_by_ou] returns does not depend on the order in
    which the directory lists its journals. *)
Theorem find_cash_journal_order_independent (env env' : Env)
  (company : option Company) (ou : option OperatingUnit) :
  Permutation (account_journal env) (account_journal env') ->
  NoDup (List.map j_id (account_journal env)) ->
  _find_cash_journal_by_ou env company ou = _find_cash_journal_by_ou env' company ou.
Proof.
  intros Hp Hnd. unfold _find_cash_journal_by_ou.
  destruct (search_id_asc _ (account_journal env)) as [j|] eqn:E;
    destruct (search_id_asc _ (account_journal env')) as [j'|] eqn:E'.
  - apply search_id_asc_Some in E as (Hin & Hd & Hle).
    apply search_id_asc_Some in E' as (Hin' & Hd' & Hle').
    assert (Hin2 : In j' (account_journal env))
      by (apply list_elem_of_In; rewrite Hp; now apply list_elem_of_In).
    assert (Hin3 : In j (account_journal env'))
      by (apply list_elem_of_In; rewrite <- Hp; now apply list_elem_of_In).
    f_equal. apply (same_id_same_journal (account_journal env)); try assumption.
    specialize (Hle j' Hin2 Hd'). specialize (Hle' j Hin3 Hd). lia.
  - apply search_id_asc_Some in E as (Hin & Hd & _).
    assert (Hin3 : In j (account_journal env'))
      by (apply list_elem_of_In; rewrite <- Hp; now apply list_elem_of_In).
    rewrite (proj1 (search_id_asc_None _ _) E' j Hin3) in Hd. discriminate.
  - apply search_id_asc_Some in E' as (Hin' & Hd' & _).
    assert (Hin2 : In j' (account_journal env))
      by (apply list_elem_of_In; rewrite Hp; now apply list_elem_of_In).
    rewrite (proj1 (search_id_asc_None _ _) E j' Hin2) in Hd'. discriminate.
  - reflexivity.
Qed.

Lemma find_cash_journal_order_independent_witness :
  _find_cash_journal_by_ou Example.env (Some Example.company) (Some Example.U1)
  = _find_cash_journal_by_ou Forms.env_by_id (Some Example.company) (Some Example.U1).
Proof.
  apply find_cash_journal_order_independent.
  - simpl. solve_Permutation.
  - simpl. apply NoDup_ListNoDup. repeat constructor; simpl; intuition discriminate.
Defined.

(** ** Further properties of the onchange of the source journal *)

Lemma enforce_ou_cases env rec :
  enforce_ou env rec = rec
  \/ exists c u j j1,
       company_id rec = Some c /\ _get_user_default_ou env = Some u
       /\ journal_id_from rec = Some j
       /\ j_operating_unit_id j <> Some (ou_id u)
       /\ _find_cash_journal_by_ou env (Some c) (Some u) = Some j1
       /\ j_operating_unit_id j1 = Some (ou_id u)
       /\ enforce_ou env rec = set_journal_id_from (Some j1) rec.
Proof.
  unfold enforce_ou.
  destruct (company_id rec) as [c|] eqn:Hc; [|now left].
  destruct (_get_user_default_ou env) as [u|] eqn:Hu; [|now left].
  destruct (journal_id_from rec) as [j|] eqn:Hj; [|now left].
  simpl. destruct (id_eq (j_operating_unit_id j) (Some (ou_id u))) eqn:Hne; [now left|].
  simpl. destruct (_find_cash_journal_by_ou env (Some c) (Some u)) as [j1|] eqn:Hf;
    [|now left].
  right. exists c, u, j, j1. apply id_eq_false in Hne.
  repeat (split; [assumption || reflexivity|]). split; [|reflexivity].
  unfold _find_cash_journal_by_ou in Hf. apply search_id_asc_Some in Hf as (_ & Hd & _).
  apply cash_journal_domain_spec in Hd as (_ & _ & Hou). now apply Hou.
Qed.

Lemma enforce_ou_idempotent env rec :
  enforce_ou env (enforce_ou env rec) = enforce_ou env rec.
Proof.
  destruct (enforce_ou_cases env rec)
    as [H|(c & u & j & j1 & Hc & Hu & Hj & Hne & Hf & Hou & H)]; rewrite H.
  - exact H.
  - unfold enforce_ou. simpl. rewrite Hc, Hu. simpl. rewrite Hou. simpl.
    now rewrite Z.eqb_refl.
Qed.

(** X5: [_onchange_from_enforce_ou] is idempotent: run on the records it
    has left, it changes nothing. *)
Theorem onchange_from_idempotent (env : Env) (self : list Transfer) :
  _onchange_from_enforce_ou env (_onchange_from_enforce_ou env self)
  = _onchange_from_enforce_ou env self.
Proof.
  unfold _onchange_from_enforce_ou. rewrite <- list_fmap_compose.
  apply list_fmap_ext. intros n rec _. simpl. apply enforce_ou_idempotent.
Qed.

(** X6: [_onchange_from_enforce_ou] keeps the number of records and
    changes no field of a record but its source journal; it leaves as it
    is every record without company, every record when the user has no
    unit, and every record without source journal. *)
Theorem onchange_from_changes_source_only (env : Env) (self : list Transfer) (n : nat)
  (rec : Transfer) :
  self !! n = Some rec ->
  length (_onchange_from_enforce_ou env self) = length self
  /\ exists rec',
       _onchange_from_enforce_ou env self !! n = Some rec'
       /\ rec' = set_journal_id_from (journal_id_from rec') rec
       /\ (company_id rec = None \/ _get_user_default_ou env = None
           \/ journal_id_from rec = None -> rec' = rec).
Proof.
  intros Hn. unfold _onchange_from_enforce_ou. rewrite length_fmap.
  split; [reflexivity|]. exists (enforce_ou env rec).
  rewrite list_lookup_fmap, Hn. split; [reflexivity|].
  destruct (enforce_ou_cases env rec)
    as [H|(c & u & j & j1 & Hc & Hu & Hj & Hne & Hf & Hou & H)]; rewrite H.
  - split; [now destruct rec|reflexivity].
  - split; [reflexivity|]. intros [H0|[H0|H0]]; congruence.
Qed.

Lemma onchange_from_changes_source_only_witness :
  length (_onchange_from_enforce_ou Example.env [Forms.blank; Forms.filled]) = 2%nat
  /\ exists rec',
       _onchange_from_enforce_ou Example.env [Forms.blank; Forms.filled] !! 0%nat
       = Some rec'
       /\ rec' = set_journal_id_from (journal_id_from rec') Forms.blank
       /\ (company_id Forms.blank = None \/ _get_user_default_ou Example.env = None
           \/ journal_id_from Forms.blank = None -> rec' = Forms.blank).
Proof.
  apply (onchange_from_changes_source_only Example.env [Forms.blank; Forms.filled]
           0 Forms.blank).
  reflexivity.
Defined.

(** X7: after [_onchange_from_enforce_ou], for a record with a company
    and a source journal, the user having a unit: either the source
    journal of the record is of the unit of the user, or the directory
    has no cash journal of the company for that unit and the record is as
    it was. *)
Theorem onchange_from_source_of_user_unit (env : Env) (self : list Transfer) (n : nat)
  (rec : Transfer) (c : Company) (u : OperatingUnit) (j : Journal) :
  self !! n = Some rec ->
  company_id rec = Some c ->
  _get_user_default_ou env = Some u ->
  journal_id_from rec = Some j ->
  exists rec',
    _onchange_from_enforce_ou env self !! n = Some rec'
    /\ ((exists j', journal_id_from rec' = Some j'
                    /\ j_operating_unit_id j' = Some (ou_id u))
        \/ (rec' = rec
            /\ forall j', In j' (account_journal env) ->
                          ~ cash_journal_of (Some c) (Some u) j')).
Proof.
  intros Hn Hc Hu Hj. exists (enforce_ou env rec).
  unfold _onchange_from_enforce_ou. rewrite list_lookup_fmap, Hn.
  split; [reflexivity|].
  destruct (enforce_ou_cases env rec)
    as [H|(c' & u' & j0 & j1 & Hc' & Hu' & Hj' & Hne & Hf & Hou & H)]; rewrite H.
  - destruct (id_eq (j_operating_unit_id j) (Some (ou_id u))) eqn:E.
    + left. exists j. split; [assumption|]. now apply id_eq_true.
    + right. split; [reflexivity|]. apply id_eq_false in E.
      rewrite (enforce_ou_differs env rec c u j Hc Hu Hj E) in H.
      destruct (_find_cash_journal_by_ou env (Some c) (Some u)) as [j1|] eqn:Hf.
      * exfalso. apply E.
        unfold _find_cash_journal_by_ou in Hf.
        apply search_id_asc_Some in Hf as (_ & Hd & _).
        apply cash_journal_domain_spec in Hd as (_ & _ & Hou).
        assert (Hjj : journal_id_from (set_journal_id_from (Some j1) rec) = Some j)
          by now rewrite H.
        simpl in Hjj. inversion Hjj; subst j1. now apply Hou.
      * intros j' Hin Hd. apply cash_journal_domain_spec in Hd.
        unfold _find_cash_journal_by_ou in Hf.
        rewrite (proj1 (search_id_asc_None _ _) Hf j' Hin) in Hd. discriminate.
  - left. exists j1. split; [reflexivity|]. congruence.
Qed.

Lemma onchange_from_source_of_user_unit_witness :
  exists rec',
    _onchange_from_enforce_ou Example.env [Forms.filled] !! 0%nat = Some rec'
    /\ ((exists j', journal_id_from rec' = Some j'
                    /\ j_operating_unit_id j' = Some (ou_id Example.U1))
        \/ (rec' = Forms.filled
            /\ forall j', In j' (account_journal Example.env) ->
                          ~ cash_journal_of (Some Example.company) (Some Example.U1) j')).
Proof.
  apply (onchange_from_source_of_user_unit Example.env [Forms.filled] 0 Forms.filled
           Example.company Example.U1 Example.J4); reflexivity.
Defined.

(** ** The onchange handlers that resolve the central journal *)

Lemma for_records_returns body self self' :
  for_records body self = (self', inr tt) ->
  Forall2 (fun rec rec' => body rec = (rec', inr tt)) self self'.
Proof.
  revert self'. induction self as [|rec rest IH]; simpl; intros self' H.
  - inversion H. constructor.
  - destruct (body rec) as [rec' [e|[]]] eqn:Eb; [discriminate|].
    destruct (for_records body rest) as [rest' r] eqn:Er.
    inversion H; subst. constructor; [assumption|]. now apply IH.
Qed.

Lemma for_records_of_Forall2 body self self' :
  Forall2 (fun rec rec' => body rec = (rec', inr tt)) self self' ->
  for_records body self = (self', inr tt).
Proof.
  induction 1 as [|rec rec' rest rest' Hb _ IH]; simpl; [reflexivity|].
  now rewrite Hb, IH.
Qed.

Lemma for_records_raises body self self' e :
  for_records body self = (self', inl e) ->
  exists pre rec post pre' rec',
    self = pre ++ rec :: post /\ self' = pre' ++ rec' :: post
    /\ Forall2 (fun r r' => body r = (r', inr tt)) pre pre'
    /\ body rec = (rec', inl e).
Proof.
  revert self'. induction self as [|a rest IH]; simpl; intros self' H; [discriminate|].
  destruct (body a) as [a' [e'|[]]] eqn:Eb.
  - inversion H; subst. exists [], a, rest, [], a'. repeat split; [constructor|assumption].
  - destruct (for_records body rest) as [rest' r] eqn:Er. inversion H; subst.
    destruct (IH rest' eq_refl) as (pre & rec & post & pre' & rec' & -> & -> & Hpre & Hrec).
    exists (a :: pre), rec, post, (a' :: pre'), rec'.
    repeat split; [constructor; assumption|assumption].
Qed.

Lemma enforce_central_returns env rec rec' :
  enforce_central env rec = (rec', inr tt) ->
  rec' = set_journal_id_to (journal_id_to rec') rec
  /\ (company_id rec = None -> rec' = rec)
  /\ (company_id rec <> None ->
      exists central,
        _get_central_cash_journal env (company_id rec) = inr central
        /\ (central = None -> rec' = rec)
        /\ (forall c, central = Some c -> journal_id_to rec' = Some c)).
Proof.
  unfold enforce_central. destruct (company_id rec) as [c|] eqn:Hc; simpl.
  - destruct (_get_central_cash_journal env (Some c)) as [e|[j|]]; [discriminate| |];
      intros [= <-].
    + split; [reflexivity|]. split; [discriminate|]. intros _. exists (Some j).
      split; [reflexivity|]. split; [discriminate|]. now intros c0 [= <-].
    + split; [now destruct rec|]. split; [reflexivity|]. intros _. exists None.
      split; [reflexivity|]. split; [reflexivity|]. discriminate.
  - intros [= <-]. split; [now destruct rec|]. split; [reflexivity|]. congruence.
Qed.

(** X8: when [_onchange_to_enforce_central] returns, it has kept the
    number of records and changed no field but the destination journal;
    a record without company, or for whose company no central journal is
    resolved, is as it was, and the destination journal of every other
    record is the central journal of its company. *)
Theorem onchange_to_sets_central (env : Env) (self self' : list Transfer) (n : nat)
  (rec : Transfer) :
  _onchange_to_enforce_central env self = (self', inr tt) ->
  self !! n = Some rec ->
  length self' = length self
  /\ exists rec',
       self' !! n = Some rec'
       /\ rec' = set_journal_id_to (journal_id_to rec') rec
       /\ (company_id rec = None -> rec' = rec)
       /\ (company_id rec <> None ->
           exists central,
             _get_central_cash_journal env (company_id rec) = inr central
             /\ (central = None -> rec' = rec)
             /\ (forall c, central = Some c -> journal_id_to rec' = Some c)).
Proof.
  intros H Hn. apply for_records_returns in H.
  split; [symmetry; eapply Forall2_length; eassumption|].
  destruct (Forall2_lookup_l _ _ _ _ _ H Hn) as (rec' & Hn' & Hb).
  exists rec'. split; [assumption|]. now apply enforce_central_returns.
Qed.

Lemma onchange_to_sets_central_witness :
  exists rec',
    [Forms.blank; set_journal_id_to (Some Example.J2) Forms.filled] !! 1%nat = Some rec'
    /\ journal_id_to rec' = Some Example.J2.
Proof.
  destruct (onchange_to_sets_central Example.env [Forms.blank; Forms.filled]
              [Forms.blank; set_journal_id_to (Some Example.J2) Forms.filled]
              1 Forms.filled eq_refl eq_refl)
    as (_ & rec' & Hn & _ & _ & Hcen).
  exists rec'. split; [exact Hn|].
  destruct Hcen as (central & Hc & _ & Hset); [discriminate|].
  apply Hset. change (_get_central_cash_journal Example.env (company_id Forms.filled))
    with (inr (Some Example.J2) : result (option Journal)) in Hc.
  now inversion Hc.
Defined.

Lemma enforce_central_idempotent env rec rec' :
  enforce_central env rec = (rec', inr tt) ->
  enforce_central env rec' = (rec', inr tt).
Proof.
  unfold enforce_central. destruct (company_id rec) as [c|] eqn:Hc; simpl.
  - destruct (_get_central_cash_journal env (Some c)) as [e|[j|]] eqn:E; [discriminate| |];
      intros [= <-]; simpl; rewrite ?Hc; simpl; rewrite E; reflexivity.
  - intros [= <-]. now rewrite Hc.
Qed.

(** X9: [_onchange_to_enforce_central] is idempotent: run on the records
    it has left, it returns and changes nothing. *)
Theorem onchange_to_idempotent (env : Env) (self self' : list Transfer) :
  _onchange_to_enforce_central env self = (self', inr tt) ->
  _onchange_to_enforce_central env self' = (self', inr tt).
Proof.
  intros H. apply for_records_returns in H. apply for_records_of_Forall2.
  induction H as [|rec rec' rest rest' Hb _ IH]; constructor; [|assumption].
  now apply (enforce_central_idempotent env rec).
Qed.

Lemma onchange_to_idempotent_witness :
  _onchange_to_enforce_central Example.env
    [Forms.blank; set_journal_id_to (Some Example.J2) Forms.filled]
  = ([Forms.blank; set_journal_id_to (Some Example.J2) Forms.filled], inr tt).
Proof.
  apply (onchange_to_idempotent Example.env [Forms.blank; Forms.filled]).
  reflexivity.
Defined.

(** X10: a record as [_onchange_to_enforce_central] has left it is never
    refused by [action_validate] with DestinationMustBeCentral. *)
Theorem validate_after_onchange_to (env : Env) (self self' : list Transfer) (n : nat)
  (rec' : Transfer) (db : DB) (i : Z) :
  _onchange_to_enforce_central env self = (self', inr tt) ->
  self' !! n = Some rec' ->
  cash_transfer db !! i = Some rec' ->
  snd (action_validate env [i] db) <> inl DestinationMustBeCentral.
Proof.
  intros H Hn Hi. apply for_records_returns in H.
  destruct (Forall2_lookup_r _ _ _ _ _ H Hn) as (rec & _ & Hb).
  rewrite action_validate_one, validate_rec_eq, Hi.
  destruct (Qle_bool (amount rec') 0); [discriminate|].
  destruct (negb (truthy (journal_id_from rec')) || negb (truthy (journal_id_to rec')));
    [discriminate|].
  destruct (journal_eq (journal_id_from rec') (journal_id_to rec')); [discriminate|].
  destruct (_get_central_cash_journal env (company_id rec')) as [e|central] eqn:Ec.
  - apply get_central_cash_journal_raises in Ec as [_ ->]. discriminate.
  - assert (Hok : truthy central && negb (journal_eq (journal_id_to rec') central) = false).
    { destruct central as [c|]; [|reflexivity].
      apply enforce_central_returns in Hb as (Hframe & Hnone & Hsome).
      assert (Hco : company_id rec' = company_id rec) by (rewrite Hframe; reflexivity).
      rewrite Hco in Ec.
      destruct (company_id rec) as [co|] eqn:Hc.
      - destruct Hsome as (central & Hcen & _ & Hset); [discriminate|].
        rewrite Ec in Hcen. inversion Hcen; subst central.
        rewrite (Hset c eq_refl). unfold journal_eq. simpl. now rewrite Z.eqb_refl.
      - apply central_journal_company_set in Ec as (c0 & Hc0 & _).
        discriminate. }
    rewrite Hok.
    destruct (negb (truthy (_main_account (journal_id_from rec')))
              || negb (truthy (_main_account (journal_id_to rec')))); discriminate.
Qed.

Lemma validate_after_onchange_to_witness :
  snd (action_validate Example.env [8]
         (Example.db_of (set_journal_id_to (Some Example.J2) Forms.filled)))
  <> inl DestinationMustBeCentral.
Proof.
  apply (validate_after_onchange_to Example.env [Forms.blank; Forms.filled]
           [Forms.blank; set_journal_id_to (Some Example.J2) Forms.filled] 1
           (set_journal_id_to (Some Example.J2) Forms.filled)); reflexivity.
Defined.

Lemma set_journals_returns env rec rec' :
  set_journals env rec = (rec', inr tt) ->
  (company_id rec = None -> rec' = rec)
  /\ (company_id rec <> None ->
      rec' = set_journal_id_to (journal_id_to rec')
               (set_journal_id_from (journal_id_from rec') rec)
      /\ journal_id_from rec'
         = _find_cash_journal_by_ou env (company_id rec) (_get_user_default_ou env)
      /\ _get_central_cash_journal env (company_id rec) = inr (journal_id_to rec')).
Proof.
  unfold set_journals. destruct (company_id rec) as [c|] eqn:Hc; simpl.
  - rewrite Hc.
    destruct (_get_central_cash_journal env (Some c)) as [e|central]; [discriminate|].
    intros [= <-]. split; [discriminate|]. intros _. simpl. repeat split.
  - intros [= <-]. split; [reflexivity|]. congruence.
Qed.

(** X11: when [_onchange_company_id_set_journals] returns, it has kept
    the number of records and left the records without company as they
    were; in every other record it has overwritten the source journal by
    what [_find_cash_journal_by_ou] returns for the company and the unit
    of the user and the destination journal by what
    [_get_central_cash_journal] returns for the company, empty results
    included, and has changed no other field. *)
Theorem onchange_company_sets_both_journals (env : Env) (self self' : list Transfer)
  (n : nat) (rec : Transfer) :
  _onchange_company_id_set_journals env self = (self', inr tt) ->
  self !! n = Some rec ->
  length self' = length self
  /\ exists rec',
       self' !! n = Some rec'
       /\ (company_id rec = None -> rec' = rec)
       /\ (company_id rec <> None ->
           rec' = set_journal_id_to (journal_id_to rec')
                    (set_journal_id_from (journal_id_from rec') rec)
           /\ journal_id_from rec'
              = _find_cash_journal_by_ou env (company_id rec) (_get_user_default_ou env)
           /\ _get_central_cash_journal env (company_id rec)
              = inr (journal_id_to rec')).
Proof.
  intros H Hn. apply for_records_returns in H.
  split; [symmetry; eapply Forall2_length; eassumption|].
  destruct (Forall2_lookup_l _ _ _ _ _ H Hn) as (rec' & Hn' & Hb).
  exists rec'. split; [assumption|]. now apply set_journals_returns.
Qed.

(** The form had J4 on both sides; the user is of the unit U1. *)
Lemma onchange_company_sets_both_journals_witness :
  _onchange_company_id_set_journals Example.env [Forms.filled]
  = ([Example.transfer (Some Example.J1) (Some Example.J2) 25], inr tt)
  /\ length [Example.transfer (Some Example.J1) (Some Example.J2) 25] = 1%nat.
Proof.
  split; [reflexivity|].
  apply (onchange_company_sets_both_journals Example.env [Forms.filled]
           [Example.transfer (Some Example.J1) (Some Example.J2) 25] 0 Forms.filled);
    reflexivity.
Defined.

(** X12: when [_onchange_company_id_set_journals] raises, the error is
    the conversion error of the parameter; it is raised on a record with
    a company, whose source journal is by then what
    [_find_cash_journal_by_ou] returns for the company and the unit of
    the user while its destination journal and its other fields are as
    they were; the records after it are as they were, and those before
    it have been processed. *)
Theorem onchange_company_raises_after_source (env : Env) (self self' : list Transfer)
  (e : exn) :
  _onchange_company_id_set_journals env self = (self', inl e) ->
  e = ValueError
  /\ exists pre rec post pre' rec',
       self = pre ++ rec :: post
       /\ self' = pre' ++ rec' :: post
       /\ _onchange_company_id_set_journals env pre = (pre', inr tt)
       /\ company_id rec <> None
       /\ journal_id_from rec'
          = _find_cash_journal_by_ou env (company_id rec) (_get_user_default_ou env)
       /\ journal_id_to rec' = journal_id_to rec
       /\ date rec' = date rec
       /\ company_id rec' = company_id rec
       /\ amount rec' = amount rec
       /\ currency_id rec' = currency_id rec
       /\ state rec' = state rec.
Proof.
  intros H. apply for_records_raises in H
    as (pre & rec & post & pre' & rec' & -> & -> & Hpre & Hrec).
  unfold set_journals in Hrec.
  destruct (company_id rec) as [c|] eqn:Hc; simpl in Hrec; [|discriminate].
  rewrite Hc in Hrec.
  destruct (_get_central_cash_journal env (Some c)) as [e'|central] eqn:Ec;
    [|discriminate].
  inversion Hrec; subst rec' e'.
  split; [now apply get_central_cash_journal_raises in Ec|].
  exists pre, rec, post, pre',
    (set_journal_id_from
       (_find_cash_journal_by_ou env (Some c) (_get_user_default_ou env)) rec).
  split; [reflexivity|]. split; [reflexivity|].
  split; [now apply for_records_of_Forall2|]. split; [congruence|].
  rewrite Hc. repeat split. simpl. now rewrite Hc.
Qed.

(** In [Example.env_text] the loop stops on the second of three forms,
    whose source journal J4 has become J1. *)
Lemma onchange_company_raises_after_source_witness :
  exists pre rec post pre' rec',
    [Forms.blank; Forms.filled; Forms.blank] = pre ++ rec :: post
    /\ [Forms.blank; set_journal_id_from (Some Example.J1) Forms.filled; Forms.blank]
       = pre' ++ rec' :: post
    /\ _onchange_company_id_set_journals Example.env_text pre = (pre', inr tt)
    /\ company_id rec <> None
    /\ journal_id_from rec'
       = _find_cash_journal_by_ou Example.env_text (company_id rec)
           (_get_user_default_ou Example.env_text)
    /\ journal_id_to rec' = journal_id_to rec.
Proof.
  destruct (proj2 (onchange_company_raises_after_source Example.env_text
                     [Forms.blank; Forms.filled; Forms.blank]
                     [Forms.blank; set_journal_id_from (Some Example.J1) Forms.filled;
                      Forms.blank]
                     ValueError eq_refl))
    as (pre & rec & post & pre' & rec' & H1 & H2 & H3 & H4 & H5 & H6 & _).
  exists pre, rec, post, pre', rec'.
  repeat (split; [assumption|]). assumption.
Defined.

Lemma set_journals_stable env rec rec' :
  set_journals env rec = (rec', inr tt) ->
  enforce_ou env rec' = rec'
  /\ enforce_central env rec' = (rec', inr tt)
  /\ set_journals env rec' = (rec', inr tt).
Proof.
  intros H. destruct (set_journals_returns env rec rec' H) as [Hnone Hsome].
  destruct (company_id rec) as [c|] eqn:Hc.
  - destruct Hsome as (Hframe & Hfrom & Hto); [discriminate|].
    assert (Hco : company_id rec' = Some c) by (rewrite Hframe; simpl; exact Hc).
    split; [|split].
    + destruct (enforce_ou_cases env rec')
        as [H0|(c' & u & j & j1 & _ & Hu & Hj & Hne & _)]; [assumption|].
      exfalso. apply Hne. rewrite Hfrom, Hu in Hj.
      unfold _find_cash_journal_by_ou in Hj.
      apply search_id_asc_Some in Hj as (_ & Hd & _).
      apply cash_journal_domain_spec in Hd as (_ & _ & Hou). now apply Hou.
    + unfold enforce_central. rewrite Hco. simpl. rewrite Hto.
      destruct (journal_id_to rec') eqn:Ht; simpl; [|reflexivity].
      rewrite <- Ht. now destruct rec'.
    + unfold set_journals. rewrite Hco. simpl. rewrite Hco, Hto, <- Hfrom.
      now destruct rec'.
  - rewrite (Hnone eq_refl). split; [|split].
    + unfold enforce_ou. now rewrite Hc.
    + unfold enforce_central. now rewrite Hc.
    + unfold set_journals. now rewrite Hc.
Qed.

(** X13: the records [_onchange_company_id_set_journals] has left are
    stable: each of the three onchange handlers, run on them, returns and
    changes nothing. *)
Theorem onchange_company_result_stable (env : Env) (self self' : list Transfer) :
  _onchange_company_id_set_journals env self = (self', inr tt) ->
  _onchange_from_enforce_ou env self' = self'
  /\ _onchange_to_enforce_central env self' = (self', inr tt)
  /\ _onchange_company_id_set_journals env self' = (self', inr tt).
Proof.
  intros H. apply for_records_returns in H.
  split; [|split].
  - unfold _onchange_from_enforce_ou.
    induction H as [|rec rec' rest rest' Hb _ IH]; [reflexivity|].
    rewrite fmap_cons, IH. f_equal. now apply (set_journals_stable env rec).
  - apply for_records_of_Forall2.
    induction H as [|rec rec' rest rest' Hb _ IH]; constructor; [|assumption].
    now apply (set_journals_stable env rec).
  - apply for_records_of_Forall2.
    induction H as [|rec rec' rest rest' Hb _ IH]; constructor; [|assumption].
    now apply (set_journals_stable env rec).
Qed.

Lemma onchange_company_result_stable_witness :
  _onchange_from_enforce_ou Example.env
    [Example.transfer (Some Example.J1) (Some Example.J2) 25]
  = [Example.transfer (Some Example.J1) (Some Example.J2) 25].
Proof.
  apply (onchange_company_result_stable Example.env [Forms.filled]).
  reflexivity.
Defined.

(** ** The defaults of a new transfer *)

Lemma in_fields_In (name : string) (fields_list : list string) :
  in_fields name fields_list = true <-> In name fields_list.
Proof.
  unfold in_fields. rewrite existsb_exists. split.
  - intros (x & Hin & Heq). apply String.eqb_eq in Heq. now subst.
  - intros H. exists name. split; [assumption|apply String.eqb_refl].
Qed.

(** X14: [default_get] raises exactly when [_get_central_cash_journal]
    raises for the company of the user, whatever the fields asked for,
    the empty list included.  When it returns, the dictionary is the one
    it was given but for the keys [journal_id_from] and [journal_id_to]:
    each of them holds the id of the journal found (the cash journal of
    the unit of the user, the central journal) when the field is asked
    for and a journal is found, and is as it was given otherwise. *)
Theorem default_get_sets_found_journals (env : Env) (company : option Company)
  (res : gmap string value) (fields_list : list string) :
  (forall e, default_get env company res fields_list = inl e <->
             _get_central_cash_journal env company = inl e)
  /\ forall res',
       default_get env company res fields_list = inr res' ->
       (forall k, k <> "journal_id_from"%string -> k <> "journal_id_to"%string ->
                  res' !! k = res !! k)
       /\ (forall j,
              In "journal_id_from"%string fields_list ->
              _find_cash_journal_by_ou env company (_get_user_default_ou env) = Some j ->
              res' !! "journal_id_from"%string = Some (VInt (j_id j)))
       /\ (~ In "journal_id_from"%string fields_list
           \/ _find_cash_journal_by_ou env company (_get_user_default_ou env) = None ->
           res' !! "journal_id_from"%string = res !! "journal_id_from"%string)
       /\ (forall j,
              In "journal_id_to"%string fields_list ->
              _get_central_cash_journal env company = inr (Some j) ->
              res' !! "journal_id_to"%string = Some (VInt (j_id j)))
       /\ (~ In "journal_id_to"%string fields_list
           \/ _get_central_cash_journal env company = inr None ->
           res' !! "journal_id_to"%string = res !! "journal_id_to"%string).
Proof.
  unfold default_get.
  destruct (_get_central_cash_journal env company) as [e0|j_to] eqn:Ec.
  - split; [intros e; split; congruence|discriminate].
  - split; [intros e; split; discriminate|].
    intros res' [= <-].
    set (j_from := _find_cash_journal_by_ou env company (_get_user_default_ou env)).
    assert (Hne : "journal_id_to"%string <> "journal_id_from"%string) by discriminate.
    destruct (in_fields "journal_id_from" fields_list) eqn:Ef;
      destruct (in_fields "journal_id_to" fields_list) eqn:Et;
      destruct j_from as [jf|]; destruct j_to as [jt|];
      repeat split;
      try (intros k Hk1 Hk2; rewrite ?lookup_insert_ne by congruence; reflexivity);
      try (intros j Hin [= <-]); try (intros j Hin ?);
      try (intros [Hin|?]);
      rewrite ?lookup_insert_eq, ?lookup_insert_ne by congruence;
      rewrite ?lookup_insert_eq;
      try reflexivity; try discriminate; try congruence;
      try (apply in_fields_In in Hin; congruence);
      try (exfalso; apply Hin; apply in_fields_In; assumption).
Qed.

(** Only the destination is asked for: the id 4 the dictionary held is
    replaced by the id of the central journal J2. *)
Lemma default_get_sets_found_journals_witness :
  default_get Example.env (Some Example.company) Forms.res ["journal_id_to"%string]
  = inr (<["journal_id_to"%string := VInt 2]> Forms.res)
  /\ <["journal_id_to"%string := VInt 2]> Forms.res !! "state"%string
     = Forms.res !! "state"%string.
Proof.
  split; [reflexivity|].
  apply (proj2 (default_get_sets_found_journals Example.env (Some Example.company)
                  Forms.res ["journal_id_to"%string])
           (<["journal_id_to"%string := VInt 2]> Forms.res) eq_refl);
    discriminate.
Defined.

(** ** Further properties of [action_validate] on several records *)

(** X15: when [action_validate] returns, the value is [True], every
    record of the recordset is in the state 'validated', and the moves
    are those there were, untouched, with one more posted move for each
    record of the recordset, a record listed twice being booked twice. *)
Theorem validate_batch_books_every_record (env : Env) (self : list Z) (db db' : DB)
  (b : bool) :
  action_validate env self db = (db', inr b) ->
  b = true
  /\ (forall k, In k self ->
                exists r, cash_transfer db' !! k = Some r
                          /\ state r = "validated"%string)
  /\ size (account_move db') = (size (account_move db) + length self)%nat
  /\ (forall k m, account_move db' !! k = Some m -> account_move db !! k = None ->
                  m_state m = "posted"%string)
  /\ (forall k m, account_move db !! k = Some m -> account_move db' !! k = Some m).
Proof.
  rewrite action_validate_eq.
  destruct (for_each (validate_rec env) self db) as [db1 [e|[]]] eqn:E; [discriminate|].
  intros [= -> <-]. split; [reflexivity|].
  destruct (for_each_returns env self db db' E) as (H1 & H2 & H3 & H4 & _). auto.
Qed.

(** The record 8 listed twice gets two moves. *)
Lemma validate_batch_books_every_record_witness :
  exists db',
    action_validate Example.env [8; 8]
      (Example.db_of (Example.transfer (Some Example.J1) (Some Example.J2) 100))
    = (db', inr true)
    /\ size (account_move db') = 2%nat.
Proof.
  destruct (action_validate Example.env [8; 8]
              (Example.db_of (Example.transfer (Some Example.J1) (Some Example.J2) 100)))
    as [db' r] eqn:E.
  assert (Hr : r = inr true) by (apply (f_equal snd) in E; vm_compute in E; congruence).
  subst r. exists db'. split; [reflexivity|].
  destruct (validate_batch_books_every_record _ _ _ _ _ E) as (_ & _ & Hsize & _).
  rewrite Hsize. reflexivity.
Defined.

Lemma validate_rec_frame env i db db' r k :
  validate_rec env i db = (db', r) ->
  cash_transfer db' !! k = cash_transfer db !! k
  \/ (k = i /\ cash_transfer db' !! k = set_state "validated" <$> cash_transfer db !! k).
Proof.
  destruct r as [e|[]]; intros H.
  - apply validate_rec_raises in H. subst. now left.
  - apply validate_rec_returns in H as (rec & Hrec & _ & ->). simpl.
    destruct (decide (i = k)) as [->|Hne].
    + right. split; [reflexivity|]. now rewrite lookup_insert_eq, Hrec.
    + left. now apply lookup_insert_ne.
Qed.

Lemma for_each_frame env self db db' r k :
  for_each (validate_rec env) self db = (db', r) ->
  cash_transfer db' !! k = cash_transfer db !! k
  \/ (In k self
      /\ cash_transfer db' !! k = set_state "validated" <$> cash_transfer db !! k).
Proof.
  revert db. induction self as [|a rest IH]; intros db H.
  - inversion H. now left.
  - rewrite for_each_cons in H.
    destruct (validate_rec env a db) as [dba [e|[]]] eqn:Ea.
    + inversion H; subst.
      destruct (validate_rec_frame env a db db' (inl e) k Ea) as [H0|[-> H0]];
        [now left|right; split; [now left|assumption]].
    + destruct (IH _ H) as [H1|[Hin H1]];
        destruct (validate_rec_frame env a db dba (inr tt) k Ea) as [H0|[-> H0]].
      * left. congruence.
      * right. split; [now left|congruence].
      * right. split; [now right|congruence].
      * right. split; [now left|]. rewrite H1, H0.
        now destruct (cash_transfer db !! a).
Qed.

(** X16: whatever its outcome, [action_validate] creates no transfer and
    deletes none, leaves every record that is not in the recordset as it
    was, and changes at most the state of a record of the recordset, to
    'validated'. *)
Theorem validate_changes_only_state (env : Env) (self : list Z) (db db' : DB)
  (r : result bool) (k : Z) :
  action_validate env self db = (db', r) ->
  cash_transfer db' !! k = cash_transfer db !! k
  \/ (In k self
      /\ cash_transfer db' !! k = set_state "validated" <$> cash_transfer db !! k).
Proof.
  rewrite action_validate_eq.
  destruct (for_each (validate_rec env) self db) as [db1 r1] eqn:E.
  intros H. assert (db1 = db') by (destruct r1; now inversion H). subst db1.
  now apply (for_each_frame env self db db' r1).
Qed.

(** The transfer 9 of [Example.db_pair] is refused and stays a draft. *)
Lemma validate_changes_only_state_witness :
  cash_transfer
    (booked 8 (Example.transfer (Some Example.J1) (Some Example.J2) 100) Example.db_pair)
    !! 7
  = cash_transfer Example.db_pair !! 7.
Proof.
  destruct (validate_changes_only_state Example.env [8; 9] Example.db_pair
              (booked 8 (Example.transfer (Some Example.J1) (Some Example.J2) 100)
                 Example.db_pair)
              (inl InvalidAmount) 7) as [H|[Hin _]].
  - vm_compute. reflexivity.
  - exact H.
  - exfalso. destruct Hin as [H|[H|[]]]; discriminate H.
Defined.

Lemma for_each_moves env self db db' r :
  for_each (validate_rec env) self db = (db', r) ->
  (forall k m, account_move db !! k = Some m -> account_move db' !! k = Some m)
  /\ (forall k m, account_move db' !! k = Some m -> account_move db !! k = None ->
                  exists i rec,
                    In i self /\ cash_transfer db !! i = Some rec
                    /\ checks_pass env rec /\ m = transfer_move i rec).
Proof.
  revert db. induction self as [|a rest IH]; intros db H.
  - inversion H; subst. split; [auto|]. intros k m H1 H2. congruence.
  - rewrite for_each_cons in H.
    destruct (validate_rec env a db) as [dba [e|[]]] eqn:Ea.
    + inversion H; subst. apply validate_rec_raises in Ea. subst.
      split; [auto|]. intros k m H1 H2. congruence.
    + apply validate_rec_returns in Ea as (rec & Hrec & Hpass & ->).
      destruct (IH _ H) as [Hold Hnew]. split.
      * intros k m Hk. now apply Hold, booked_moves_old.
      * intros k m Hk Hfree.
        destruct (account_move (booked a rec db) !! k) as [m'|] eqn:Ek.
        -- rewrite (Hold k m' Ek) in Hk. inversion Hk; subst m'.
           destruct (booked_moves_new a rec db k m Ek) as [Hk0|[_ ->]]; [congruence|].
           exists a, rec. split; [now left|]. auto.
        -- destruct (Hnew k m Hk Ek) as (i & rec1 & Hin & Hrow & Hp & ->).
           simpl in Hrow. destruct (decide (a = i)) as [->|Hne].
           ++ rewrite lookup_insert_eq in Hrow. inversion Hrow; subst rec1.
              exists i, rec. split; [now left|]. auto.
           ++ rewrite lookup_insert_ne in Hrow by assumption.
              exists i, rec1. split; [now right|]. auto.
Qed.

(** X17: whatever its outcome, [action_validate] touches no move that
    was there, and every move it creates is the posted move of a record
    of the recordset, the row [rec] of id [i] of the table, that passes
    the five checks: the move has exactly two lines, its debits equal its
    credits, it is dated of the date of the record, refers to its id,
    bears its company, and is journaled under its destination journal,
    which is the central journal of that company whenever one is
    resolved. *)
Theorem validate_creates_balanced_central_moves (env : Env) (self : list Z)
  (db db' : DB) (r : result bool) :
  action_validate env self db = (db', r) ->
  (forall k m, account_move db !! k = Some m -> account_move db' !! k = Some m)
  /\ (forall k m,
         account_move db' !! k = Some m -> account_move db !! k = None ->
         m_state m = "posted"%string
         /\ length (m_lines m) = 2%nat
         /\ (balance (m_lines m) == 0)%Q
         /\ exists i rec,
              In i self
              /\ cash_transfer db !! i = Some rec
              /\ checks_pass env rec
              /\ m_date m = date rec
              /\ m_ref m = String.append "Transferencia de efectivo #" (str i)
              /\ m_company_id m = company_id_of (company_id rec)
              /\ m_journal_id m = journal_id_of (journal_id_to rec)
              /\ forall c,
                   _get_central_cash_journal env (company_id rec) = inr (Some c) ->
                   m_journal_id m = Some (j_id c)).
Proof.
  rewrite action_validate_eq.
  destruct (for_each (validate_rec env) self db) as [db1 r1] eqn:E.
  intros H. assert (db1 = db') by (destruct r1; now inversion H). subst db1.
  destruct (for_each_moves env self db db' r1 E) as [Hold Hnew].
  split; [assumption|]. intros k m Hk Hfree.
  destruct (Hnew k m Hk Hfree) as (i & rec & Hin & Hrow & Hpass & ->).
  split; [reflexivity|]. split; [reflexivity|].
  split; [apply balance_transfer_move|].
  exists i, rec. repeat (split; [assumption || reflexivity|]).
  intros c Hc.
  destruct Hpass as (_ & jf & jt & _ & Ht & _ & (central & Hcen & Hsame) & _).
  rewrite Hc in Hcen. inversion Hcen; subst central.
  simpl. rewrite Ht. simpl. now rewrite (Hsame c eq_refl).
Qed.

(** The move booked for the transfer 8 of [Example.db_pair] in a call
    that raises on the transfer 9. *)
Lemma validate_creates_balanced_central_moves_witness :
  (balance (m_lines (transfer_move 8
                       (Example.transfer (Some Example.J1) (Some Example.J2) 100)))
   == 0)%Q.
Proof.
  destruct (validate_creates_balanced_central_moves Example.env [8; 9] Example.db_pair
              (booked 8 (Example.transfer (Some Example.J1) (Some Example.J2) 100)
                 Example.db_pair)
              (inl InvalidAmount)) as [_ Hnew].
  - vm_compute. reflexivity.
  - refine (proj1 (proj2 (proj2 (Hnew 1 _ _ _)))).
    + vm_compute. reflexivity.
    + vm_compute. reflexivity.
Defined.

(** ** Writing the id of a journal in the parameter *)

Lemma scan_digits_uint_acc (d : Decimal.uint) :
  forall n acc,
    scan_digits false (S n) (Z.pos acc)
      (list_ascii_of_string (NilEmpty.string_of_uint d))
    = Some (Z.pos (Pos.of_uint_acc d acc),
            (S n + length (list_ascii_of_string (NilEmpty.string_of_uint d)))%nat, []).
Proof.
  induction d; intros n acc;
    cbn [NilEmpty.string_of_uint list_ascii_of_string scan_digits Pos.of_uint_acc
         length];
    [now rewrite Nat.add_0_r|..];
    (match goal with
     | |- context [isdigit ?c] => change (isdigit c) with true; cbv iota
     end;
     match goal with
     | |- scan_digits _ _ ?v _ = Some (Z.pos (Pos.of_uint_acc _ ?p), _, _) =>
         replace v with (Z.pos p) by (unfold digit_value, ord; simpl; lia)
     end;
     rewrite Nat.add_succ_r; apply (IHd (S n))).
Qed.

Lemma scan_digits_uint (d : Decimal.uint) :
  forall n, d <> Decimal.Nil \/ n <> O ->
    scan_digits false n 0 (list_ascii_of_string (NilEmpty.string_of_uint d))
    = Some (Z.of_N (Pos.of_uint d),
            (n + length (list_ascii_of_string (NilEmpty.string_of_uint d)))%nat, []).
Proof.
  induction d; intros n Hn;
    cbn [NilEmpty.string_of_uint list_ascii_of_string scan_digits Pos.of_uint length];
    try rewrite Nat.add_succ_r.
  - destruct Hn as [Hn|Hn]; [congruence|]. rewrite Nat.add_0_r.
    destruct n; [congruence|reflexivity].
  - change (isdigit "0") with true. cbv iota.
    change (10 * 0 + digit_value "0") with 0. apply (IHd (S n)). now right.
  - change (isdigit "1") with true. cbv iota. apply scan_digits_uint_acc.
  - change (isdigit "2") with true. cbv iota. apply scan_digits_uint_acc.
  - change (isdigit "3") with true. cbv iota. apply scan_digits_uint_acc.
  - change (isdigit "4") with true. cbv iota. apply scan_digits_uint_acc.
  - change (isdigit "5") with true. cbv iota. apply scan_digits_uint_acc.
  - change (isdigit "6") with true. cbv iota. apply scan_digits_uint_acc.
  - change (isdigit "7") with true. cbv iota. apply scan_digits_uint_acc.
  - change (isdigit "8") with true. cbv iota. apply scan_digits_uint_acc.
  - change (isdigit "9") with true. cbv iota. apply scan_digits_uint_acc.
Qed.

Lemma uint_digits (d : Decimal.uint) :
  forallb isdigit (list_ascii_of_string (NilEmpty.string_of_uint d)) = true.
Proof. induction d; simpl; auto. Qed.

Lemma length_list_ascii_of_string (text : string) :
  length (list_ascii_of_string text) = String.length text.
Proof. induction text as [|c t IH]; simpl; [reflexivity|]. now rewrite IH. Qed.

Lemma parse_number_value (s : list ascii) (v : Z) (neg : bool) :
  decimal_digits s = true ->
  Z.of_nat (length s) <= max_str_digits ->
  scan_digits false 0 0 s = Some (v, length s, []) ->
  parse_number neg s = inr (if neg then - v else v).
Proof.
  destruct s as [|c t]; [discriminate|]. intros Hall Hlen Hscan.
  unfold decimal_digits in Hall.
  assert (Hc : isdigit c = true) by (simpl in Hall; now apply andb_true_iff in Hall as [? _]).
  unfold parse_number. rewrite (isdigit_not_char c "_" Hc eq_refl), Hscan.
  replace (max_str_digits <? Z.of_nat (length (c :: t))) with false
    by (symmetry; apply Z.ltb_ge; assumption).
  reflexivity.
Qed.

Lemma int_unsigned (text : string) (v : Z) :
  decimal_digits (list_ascii_of_string text) = true ->
  Z.of_nat (String.length text) <= max_str_digits ->
  scan_digits false 0 0 (list_ascii_of_string text)
  = Some (v, length (list_ascii_of_string text), []) ->
  int text = inr v /\ int (String "-" text) = inr (- v).
Proof.
  intros Hall Hlen Hscan. rewrite <- length_list_ascii_of_string in Hlen.
  unfold int. cbn [list_ascii_of_string lstrip].
  change (isspace "-") with false. cbv iota.
  change (Ascii.eqb "-" "+") with false. change (Ascii.eqb "-" "-") with true. cbv iota.
  split; [|exact (parse_number_value _ v true Hall Hlen Hscan)].
  destruct (list_ascii_of_string text) as [|c t] eqn:El; [discriminate|].
  assert (Hc : isdigit c = true)
    by (simpl in Hall; now apply andb_true_iff in Hall as [? _]).
  cbn [lstrip]. rewrite (isdigit_not_space c Hc).
  rewrite (isdigit_not_char c "+" Hc eq_refl), (isdigit_not_char c "-" Hc eq_refl).
  exact (parse_number_value _ v false Hall Hlen Hscan).
Qed.

Lemma uint_decimal_digits (d : Decimal.uint) :
  d <> Decimal.Nil ->
  decimal_digits (list_ascii_of_string (NilEmpty.string_of_uint d)) = true
  /\ NilZero.string_of_uint d = NilEmpty.string_of_uint d.
Proof.
  intros Hd. pose proof (uint_digits d) as Hall.
  destruct d; [congruence|..]; split; try reflexivity; exact Hall.
Qed.

(** [int(str(n))] is [n], for a text [str(n)] of at most 4300
    characters. *)
Lemma int_str (n : Z) :
  Z.of_nat (String.length (str n)) <= max_str_digits -> int (str n) = inr n.
Proof.
  destruct n as [|p|p]; [reflexivity| |];
    unfold str; simpl Z.to_int; unfold NilZero.string_of_int;
    destruct (uint_decimal_digits (Pos.to_uint p) (Unsigned.to_uint_nonnil p))
      as [Hall Heq];
    pose proof (scan_digits_uint (Pos.to_uint p) 0
                  (or_introl (Unsigned.to_uint_nonnil p))) as Hscan;
    rewrite Unsigned.of_to in Hscan; cbn [Nat.add] in Hscan; rewrite Heq;
    intros Hlen.
  - exact (proj1 (int_unsigned _ _ Hall Hlen Hscan)).
  - refine (proj2 (int_unsigned _ _ Hall _ Hscan)).
    cbn [String.length] in Hlen. lia.
Qed.

Lemma browse_exists_In env j :
  In j (account_journal env) -> NoDup (List.map j_id (account_journal env)) ->
  browse_exists env (j_id j) = Some j.
Proof.
  intros Hin Hnd. destruct (browse_exists env (j_id j)) as [j'|] eqn:E.
  - apply browse_exists_Some in E as [Hin' Hid]. f_equal.
    now apply (same_id_same_journal (account_journal env)).
  - destruct (browse_exists_None env (j_id j) E j Hin). reflexivity.
Qed.

(** X18: writing [str(j.id)] in the parameter
    [cash_transfer.central_journal_id], for a cash journal [j] of the
    company whose id is not 0 and is written in at most 4300 characters,
    in a directory whose ids are pairwise distinct, makes
    [_get_central_cash_journal] return [j] for that company: the text
    written is read back as the id. *)
Theorem central_journal_configured_by_id (env : Env) (company : option Company)
  (j : Journal) :
  ir_config_parameter env !! "cash_transfer.central_journal_id"%string
  = Some (str (j_id j)) ->
  Z.of_nat (String.length (str (j_id j))) <= max_str_digits ->
  j_id j <> 0 ->
  In j (account_journal env) ->
  NoDup (List.map j_id (account_journal env)) ->
  Some (j_company_id j) = company_id_of company ->
  j_type j = "cash"%string ->
  _get_central_cash_journal env company = inr (Some j).
Proof.
  intros Hp Hlen Hnz Hin Hnd Hc Ht.
  assert (Hne : String.eqb (str (j_id j)) "" = false).
  { destruct (String.eqb_spec (str (j_id j)) "") as [E|]; [|reflexivity].
    pose proof (int_str (j_id j) Hlen) as Hi. rewrite E in Hi. discriminate Hi. }
  assert (Hid : int_or_0 (get_param env "cash_transfer.central_journal_id" "0")
                = inr (j_id j)).
  { unfold get_param. rewrite Hp, Hne. unfold int_or_0. rewrite Hne.
    now apply int_str. }
  rewrite (get_central_cash_journal_returns env company (j_id j) Hid).
  assert (H : central_configured env company (j_id j) = Some j).
  { apply central_configured_Some. repeat split; try assumption.
    now apply browse_exists_In. }
  now rewrite H.
Qed.

Lemma central_journal_configured_by_id_witness :
  _get_central_cash_journal Example.env_configured (Some Example.company)
  = inr (Some Example.J3).
Proof.
  apply central_journal_configured_by_id.
  - reflexivity.
  - vm_compute. discriminate.
  - discriminate.
  - simpl. tauto.
  - simpl. apply NoDup_ListNoDup. repeat constructor; simpl; intuition discriminate.
  - reflexivity.
  - reflexivity.
Defined.

(** X19: a record with a company for which no central journal is
    resolved comes out of [_onchange_company_id_set_journals] without
    destination journal, and [action_validate] then refuses it, with
    InvalidAmount when its amount is not strictly positive and with
    MissingJournal otherwise, the tables left as they were. *)
Theorem validate_after_onchange_company_without_central (env : Env)
  (self self' : list Transfer) (n : nat) (rec rec' : Transfer) (db : DB) (i : Z) :
  _onchange_company_id_set_journals env self = (self', inr tt) ->
  self !! n = Some rec ->
  self' !! n = Some rec' ->
  company_id rec <> None ->
  _get_central_cash_journal env (company_id rec) = inr None ->
  cash_transfer db !! i = Some rec' ->
  journal_id_to rec' = None
  /\ ((amount rec' <= 0)%Q -> action_validate env [i] db = (db, inl InvalidAmount))
  /\ ((0 < amount rec')%Q -> action_validate env [i] db = (db, inl MissingJournal)).
Proof.
  intros H Hn Hn' Hco Hcen Hi.
  apply for_records_returns in H.
  destruct (Forall2_lookup_l _ _ _ _ _ H Hn) as (rec0 & Hn0 & Hb).
  rewrite Hn' in Hn0. inversion Hn0; subst rec0.
  destruct (proj2 (set_journals_returns env rec rec' Hb) Hco) as (_ & _ & Hto).
  rewrite Hcen in Hto.
  assert (Ht : journal_id_to rec' = None) by now inversion Hto.
  split; [assumption|].
  rewrite action_validate_one, validate_rec_eq, Hi. split.
  - intros Hle. apply Qle_bool_iff in Hle. now rewrite Hle.
  - intros Hpos.
    replace (Qle_bool (amount rec') 0) with false.
    2:{ symmetry. apply not_true_is_false. intros Hle. apply Qle_bool_iff in Hle.
        now apply Qlt_not_le in Hpos. }
    now rewrite Ht, orb_true_r.
Qed.

(** The form had J4 on both sides; without central unit the handler
    empties its destination, and the transfer is refused. *)
Lemma validate_after_onchange_company_without_central_witness :
  action_validate Forms.env_without_central [8]
    (Example.db_of (Example.transfer (Some Example.J1) None 25))
  = (Example.db_of (Example.transfer (Some Example.J1) None 25), inl MissingJournal).
Proof.
  apply (validate_after_onchange_company_without_central Forms.env_without_central
           [Forms.filled] [Example.transfer (Some Example.J1) None 25] 0
           Forms.filled (Example.transfer (Some Example.J1) None 25)
           (Example.db_of (Example.transfer (Some Example.J1) None 25)) 8);
    try reflexivity.
  discriminate.
Defined.
